(** * Mushroom Lab favicon generator: a model of tools/generate_favicons.py

    The script draws a mushroom glyph with Pillow and writes a fixed set of
    icon files.  The development has three layers.

    - [Py]: the Python numbers the script computes with: unbounded integers
      and binary64 floats (Stdlib's [SpecFloat] at precision 53).
    - [Pillow]: image objects on a heap.  An image object holds the
      expression of the drawing operations applied to it so far; handles,
      in-place mutation and the objects returned by [filter] and
      [Image.eval] are modelled as Pillow has them, so that aliasing between
      an [ImageDraw] handle and a rebound variable is visible.
    - [Raster]: the pixels an image expression denotes, for an arbitrary
      rasteriser and blur kernel.

    The script itself ([draw_mushroom], [render_icon], [apple_icon] and the
    module's top level) is in [Favicons]; [Effect] names the images and
    files it leaves behind, and the proofs show that running the script
    yields them. *)

From Stdlib Require Import ZArith List Bool Lia String Ascii DecimalString.
From Stdlib Require Import Floats.SpecFloat.
From stdpp Require Import base option list gmap strings.

Open Scope Z_scope.
#[local] Set Warnings "-register-all".

(** ** Python numbers *)
Module Py.

Definition prec : Z := 53.
Definition emax : Z := 1024.

(** A Python [float] is an IEEE 754 binary64 value. *)
Definition float : Type := spec_float.

(** [float(z)] for an integer [z]: the nearest binary64 value. *)
Definition of_int (z : Z) : float := binary_normalize prec emax z 0 false.

Definition fmul : float -> float -> float := SFmul prec emax.
Definition fdiv : float -> float -> float := SFdiv prec emax.
Definition fadd : float -> float -> float := SFadd prec emax.
Definition fsub : float -> float -> float := SFsub prec emax.

(** The decimal literal [n/d] (such as [0.09] = [lit 9 100]): Python reads
    a literal as the binary64 value nearest to it, which is the correctly
    rounded quotient. *)
Definition lit (n d : Z) : float := fdiv (of_int n) (of_int d).

(** [int(x)]: truncation towards zero.  On an infinity or a NaN Python
    raises; the model returns 0 there.  The script applies [int] only to
    products of a canvas size, or of a band value, and a constant below 2. *)
Definition int (x : float) : Z :=
  match x with
  | S754_finite sg m e =>
      let a := match e with
               | Z0 => Zpos m
               | Zpos _ => Z.shiftl (Zpos m) e
               | Zneg p => Z.shiftr (Zpos m) (Zpos p)
               end in
      if sg then - a else a
  | _ => 0
  end.

(** Truth value of an integer in a condition ([if outline_px:]). *)
Definition truthy (z : Z) : bool := negb (z =? 0).

(** A number in a coordinate list: Python keeps ints and floats apart. *)
Inductive num : Type :=
| Int (z : Z)
| Float (x : float).

(** [str(n)] of an integer, as an f-string prints it. *)
Definition str (n : Z) : string := NilZero.string_of_int (Z.to_int n).

End Py.

Declare Scope pyfloat_scope.
Delimit Scope pyfloat_scope with py.
Bind Scope pyfloat_scope with Py.float.
Notation "x * y" := (Py.fmul x y) : pyfloat_scope.
Notation "x / y" := (Py.fdiv x y) : pyfloat_scope.
Notation "x + y" := (Py.fadd x y) : pyfloat_scope.
Notation "x - y" := (Py.fsub x y) : pyfloat_scope.
Notation "# z" := (Py.of_int z) (at level 5, format "# z") : pyfloat_scope.

(** ** Pillow: image objects, handles and files *)
Module Pillow.

Inductive mode : Type := RGBA | L.

Definition bands (m : mode) : Z :=
  match m with RGBA => 4 | L => 1 end.

(** A colour is a Python tuple (or a single int for mode L): one entry per
    band. *)
Definition color : Type := list Z.

(** The content of an image object: how its pixel buffer was computed. *)
Inductive image : Type :=
| New (m : mode) (w h : Z) (c : color)
| DrawEllipse (im : image) (box : list Py.num)
    (fill outline : option color) (width : Z)
| DrawRoundedRectangle (im : image) (box : list Py.num) (radius : Z)
    (fill outline : option color) (width : Z)
| GaussianBlur (radius : Z) (im : image)
| Point (lut : list Z) (im : image)
| AlphaComposite (im src : image) (dest : Z * Z)
| Composite (im1 im2 mask : image)
| PutAlpha (im alpha : image).

Fixpoint mode_of (im : image) : mode :=
  match im with
  | New m _ _ _ => m
  | DrawEllipse im _ _ _ _ => mode_of im
  | DrawRoundedRectangle im _ _ _ _ _ => mode_of im
  | GaussianBlur _ im => mode_of im
  | Point _ im => mode_of im
  | AlphaComposite im _ _ => mode_of im
  | Composite im1 _ _ => mode_of im1
  | PutAlpha im _ => mode_of im
  end.

Fixpoint size_of (im : image) : Z * Z :=
  match im with
  | New _ w h _ => (w, h)
  | DrawEllipse im _ _ _ _ => size_of im
  | DrawRoundedRectangle im _ _ _ _ _ => size_of im
  | GaussianBlur _ im => size_of im
  | Point _ im => size_of im
  | AlphaComposite im _ _ => size_of im
  | Composite im1 _ _ => size_of im1
  | PutAlpha im _ => size_of im
  end.

Inductive format : Type := PNG | ICO.

(** JSON values, for the manifest handed to [json.dumps]. *)
Inductive json : Type :=
| JString (s : string)
| JArray (items : list json)
| JObject (members : list (string * json)).

(** Text handed to [write_text]: a string of the script, or what
    [json.dumps(value, indent=...)] prints. *)
Inductive text : Type :=
| Literal (s : string)
| JsonDumps (value : json) (indent : Z).

(** What a file holds. *)
Inductive file : Type :=
| ImageFile (fmt : format) (im : image) (sizes : option (list (Z * Z)))
| TextFile (t : text).

(** References to image objects: positions in the heap. *)
Definition ref : Type := nat.

Record world : Type := World {
  heap : list image;
  disk : gmap string file
}.

Inductive exn : Type :=
| ValueError
| OverflowError
| MemoryError
| FileNotFoundError
| UnidentifiedImageError.

Inductive outcome (A : Type) : Type :=
| Ok (a : A) (w : world)
| Raise (e : exn).
Arguments Ok {A} a w.
Arguments Raise {A} e.

(** Computations of the script: they read and change the world, or raise. *)
Definition M (A : Type) : Type := world -> outcome A.

#[export] Instance M_ret : MRet M := fun A a w => Ok a w.
#[export] Instance M_bind : MBind M := fun A B f m w =>
  match m w with
  | Ok a w' => f a w'
  | Raise e => Raise e
  end.

Definition raise {A} (e : exn) : M A := fun _ => Raise e.

Definition alloc (im : image) : M ref := fun w =>
  Ok (length (heap w)) (World (heap w ++ [im]) (disk w)).

Definition content (r : ref) : M image := fun w =>
  match heap w !! r with
  | Some im => Ok im w
  | None => Raise ValueError
  end.

Definition update (r : ref) (f : image -> image) : M unit := fun w =>
  match heap w !! r with
  | Some im => Ok tt (World (<[r := f im]> (heap w)) (disk w))
  | None => Raise ValueError
  end.

(** [Image.new(mode, (w, h), color)].  Pillow rejects a negative dimension
    ([ValueError]), one that does not fit a C int ([OverflowError]) and a
    width above [INT_MAX / 4 - 1] = 536870910 ([MemoryError]).  Below that
    limit the allocation is taken to succeed: running out of memory is not
    modelled. *)
Definition Image_new (m : mode) (size : Z * Z) (c : color) : M ref :=
  let '(w, h) := size in
  if (w <? 0) || (h <? 0) then raise ValueError
  else if (2 ^ 31 <=? w) || (2 ^ 31 <=? h) then raise OverflowError
  else if (2 ^ 31 - 1) / 4 - 1 <? w then raise MemoryError
  else alloc (New m w h c).

(** [ImageDraw.Draw(im)]: the handle draws into the object [im] names at
    the time of the call. *)
Definition ImageDraw_Draw (im : ref) : M ref :=
  _ ← content im; mret im.

(** [d.ellipse(box, fill=, outline=, width=)].  Pillow's checks of the
    arguments (a box with [x1 < x0] or [y1 < y0]) are not modelled: the
    model describes the calls Pillow accepts. *)
Definition ellipse (d : ref) (box : list Py.num)
    (fill outline : option color) (width : Z) : M unit :=
  update d (fun im => DrawEllipse im box fill outline width).

(** [d.rounded_rectangle(box, radius=, fill=, outline=, width=)], with the
    same proviso. *)
Definition rounded_rectangle (d : ref) (box : list Py.num) (radius : Z)
    (fill outline : option color) (width : Z) : M unit :=
  update d (fun im => DrawRoundedRectangle im box radius fill outline width).

(** [im.filter(ImageFilter.GaussianBlur(radius))]: a new image object. *)
Definition filter_GaussianBlur (im : ref) (radius : Z) : M ref :=
  c ← content im; alloc (GaussianBlur radius c).

(** [Image.eval(im, f)]: Pillow tabulates [f] on 0..255, repeats the table
    once per band and maps the image through it; a new image object. *)
Definition Image_eval (im : ref) (f : Z -> Z) : M ref :=
  c ← content im;
  let table := map f (map Z.of_nat (seq 0 256)) in
  alloc (Point (mjoin (replicate (Z.to_nat (bands (mode_of c))) table)) c).

(** [im.alpha_composite(src, dest)]: in place on [im]. *)
Definition alpha_composite (im src : ref) (dest : Z * Z) : M unit :=
  s ← content src; update im (fun c => AlphaComposite c s dest).

(** [Image.composite(im1, im2, mask)]: a new image object. *)
Definition Image_composite (im1 im2 mask : ref) : M ref :=
  c1 ← content im1; c2 ← content im2; cm ← content mask;
  alloc (Composite c1 c2 cm).

(** [im.putalpha(alpha)]: in place on [im]. *)
Definition putalpha (im alpha : ref) : M unit :=
  a ← content alpha; update im (fun c => PutAlpha c a).

Definition store_file (path : string) (f : file) : M unit := fun w =>
  Ok tt (World (heap w) (<[path := f]> (disk w))).

(** [im.save(path)] and [im.save(path, format="ICO", sizes=...)]. *)
Definition save (im : ref) (path : string) (fmt : format)
    (sizes : option (list (Z * Z))) : M unit :=
  c ← content im; store_file path (ImageFile fmt c sizes).

(** [Image.open(path)]: PNG is lossless, so the image read back is the one
    saved. *)
Definition Image_open (path : string) : M ref := fun w =>
  match disk w !! path with
  | None => Raise FileNotFoundError
  | Some (ImageFile PNG c _) => alloc c w
  | Some _ => Raise UnidentifiedImageError
  end.

(** [path.write_text(text)]. *)
Definition write_text (path : string) (t : text) : M unit :=
  store_file path (TextFile t).

Definition empty_world : world := World [] ∅.

End Pillow.

(** ** The script *)
Module Favicons.
Import Pillow.

(** [OUT = ROOT / "assets" / "favicon"]; paths are relative to [ROOT]. *)
Definition OUT : string := "assets/favicon".

(** [OUT / name]. *)
Definition in_out (name : string) : string := OUT +:+ "/" +:+ name.

Definition FG : color := [233; 238; 242; 255].
Definition OUTL : color := [7; 10; 19; 255].
Definition EYES : color := [15; 18; 24; 255].
Definition RINGC : color := [20; 255; 236; 230].
Definition CARD : color := [11; 14; 18; 255].

Definition draw_mushroom (d : ref) (cx cy s : Py.float)
    (with_eyes : bool) (outline_px : Z) : M unit :=
  (* Cap *)
  let cap_w := (#184 * s)%py in
  let cap_h := (#136 * s)%py in
  let cap_box :=
    [Py.Float (cx - cap_w / #2)%py; Py.Float (cy - #38 * s - cap_h / #2)%py;
     Py.Float (cx + cap_w / #2)%py; Py.Float (cy - #38 * s + cap_h / #2)%py] in
  (if Py.truthy outline_px
   then ellipse d cap_box None (Some OUTL) outline_px
   else mret tt);;
  ellipse d cap_box (Some FG) None 1;;
  (* Stem *)
  let stem_w := (#72 * s)%py in
  let stem_h := (#96 * s)%py in
  let stem_box :=
    [Py.Float (cx - stem_w / #2)%py; Py.Float (cy - #6 * s)%py;
     Py.Float (cx + stem_w / #2)%py; Py.Float (cy - #6 * s + stem_h)%py] in
  let r := Py.int (#18 * s)%py in
  (if Py.truthy outline_px
   then rounded_rectangle d stem_box r None (Some OUTL) outline_px
   else mret tt);;
  rounded_rectangle d stem_box r (Some FG) None 1;;
  (* Eyes *)
  if with_eyes then
    let er := (#4 * s)%py in
    ellipse d
      [Py.Float (cx - #16 * s - er)%py; Py.Float (cy + #22 * s - er)%py;
       Py.Float (cx - #16 * s + er)%py; Py.Float (cy + #22 * s + er)%py]
      (Some EYES) None 1;;
    ellipse d
      [Py.Float (cx + #16 * s - er)%py; Py.Float (cy + #22 * s - er)%py;
       Py.Float (cx + #16 * s + er)%py; Py.Float (cy + #22 * s + er)%py]
      (Some EYES) None 1
  else mret tt.

Definition render_icon (size : Z) (ring : bool) : M ref :=
  im ← Image_new RGBA (size, size) [0; 0; 0; 0];
  d ← ImageDraw_Draw im;
  let s := (#size / Py.lit 256 1)%py in
  let cx := (#size / #2)%py in
  let cy := cx in
  (* Optional teal ring: [im] is rebound to the blurred copy, [d] is not *)
  im ← (if ring then
          let pad := Py.int (#size * Py.lit 9 100)%py in
          let width := Z.max 2 (Py.int (#size * Py.lit 8 100)%py) in
          ellipse d [Py.Int pad; Py.Int pad;
                     Py.Int (size - pad); Py.Int (size - pad)]
            None (Some RINGC) width;;
          filter_GaussianBlur im
            (Z.max 0 (Py.int (#size * Py.lit 4 1000)%py))
        else mret im);
  (* Soft shadow *)
  sh ← Image_new RGBA (size, size) [0; 0; 0; 0];
  ds ← ImageDraw_Draw sh;
  draw_mushroom ds cx cy s false 0;;
  sh ← filter_GaussianBlur sh (Z.max 1 (Py.int (#size * Py.lit 3 100)%py));
  sh ← Image_eval sh (fun p => Py.int (#p * Py.lit 22 100)%py);
  alpha_composite im sh (0, 0);;
  (* Outline for tiny sizes *)
  let '(outline_px, eyes) :=
    if size <=? 32 then ((if 24 <=? size then 2 else 1), false)
    else if size <? 48 then (1, false)
    else (0, true) in
  draw_mushroom d cx cy s eyes outline_px;;
  mret im.

Definition apple_icon (size : Z) : M ref :=
  card ← Image_new RGBA (size, size) CARD;
  m ← Image_new L (size, size) [0];
  dm ← ImageDraw_Draw m;
  ellipse dm
    [Py.Int (- Py.int (#size * Py.lit 2 10)%py);
     Py.Int (- Py.int (#size * Py.lit 2 10)%py);
     Py.Int (Py.int (#size * Py.lit 12 10)%py);
     Py.Int (Py.int (#size * Py.lit 12 10)%py)]
    (Some [255]) None 1;;
  m ← filter_GaussianBlur m (Py.int (#size * Py.lit 12 100)%py);
  tint ← Image_new RGBA (size, size) [16; 22; 30; 255];
  lifted ← Image_composite tint card m;
  g ← render_icon (Py.int (#size * Py.lit 70 100)%py) true;
  out ← Image_new RGBA (size, size) CARD;
  alpha_composite out lifted (0, 0);;
  alpha_composite out g
    (Py.int (#size * Py.lit 15 100)%py, Py.int (#size * Py.lit 15 100)%py);;
  rr ← Image_new L (size, size) [0];
  dr ← ImageDraw_Draw rr;
  rounded_rectangle dr [Py.Int 0; Py.Int 0; Py.Int size; Py.Int size]
    (Py.int (#size * Py.lit 22 100)%py) (Some [255]) None 1;;
  putalpha out rr;;
  mret out.

(** [for x in xs: body(x)]. *)
Fixpoint for_each {A} (xs : list A) (body : A -> M unit) : M unit :=
  match xs with
  | [] => mret tt
  | x :: xs' => body x;; for_each xs' body
  end.

(** The script's text literals use double quotes throughout and no
    apostrophe; they are written here with apostrophes and converted. *)
Fixpoint dquote (s : string) : string :=
  match s with
  | EmptyString => EmptyString
  | String c s' =>
      String (if Ascii.eqb c "'"%char then "034"%char else c) (dquote s')
  end.

Definition nl : string := String "010"%char EmptyString.

Definition svg : string :=
  dquote ("<svg xmlns='http://www.w3.org/2000/svg' viewBox='0 0 256 256'>" +:+ nl +:+
"  <circle cx='128' cy='128' r='112' fill='none' stroke='#14ffec' stroke-width='14' stroke-linecap='round' opacity='0.85'/>" +:+ nl +:+
"  <g fill='#e9eef2' stroke='#070a13' stroke-width='3'>" +:+ nl +:+
"    <ellipse cx='128' cy='90' rx='92' ry='68'/>" +:+ nl +:+
"    <rect x='94' y='106' width='68' height='92' rx='18' ry='18'/>" +:+ nl +:+
"  </g>" +:+ nl +:+
"</svg>").

Definition pinned_tab_svg : string :=
  dquote ("<svg xmlns='http://www.w3.org/2000/svg' viewBox='0 0 256 256'>" +:+
          "<ellipse cx='128' cy='90' rx='92' ry='68' fill='#000'/>" +:+
          "<rect x='94' y='106' width='68' height='92' rx='18' ry='18' fill='#000'/>" +:+
          "</svg>").

Definition manifest : json :=
  JObject
    [("name", JString "Mushroom Lab");
     ("short_name", JString "MushroomLab");
     ("icons", JArray
        [JObject [("src", JString "/assets/favicon/android-chrome-192x192.png");
                  ("sizes", JString "192x192");
                  ("type", JString "image/png")];
         JObject [("src", JString "/assets/favicon/android-chrome-512x512.png");
                  ("sizes", JString "512x512");
                  ("type", JString "image/png")]]);
     ("theme_color", JString "#0b0e12");
     ("background_color", JString "#0b0e12");
     ("display", JString "standalone")].

Definition icon_sizes : list Z := [16; 24; 32; 48; 64; 128; 192; 256; 512].

(** [Image.open(OUT/src).save(OUT/dst)]. *)
Definition copy_png (src dst : string) : M unit :=
  im ← Image_open (in_out src); save im (in_out dst) PNG None.

(** The module's top level, after the output directory is created. *)
Definition generate : M unit :=
  (* Transparent PNGs (ring only for >= 64) *)
  for_each icon_sizes (fun n =>
    img ← render_icon n (64 <=? n);
    save img (in_out ("icon-" +:+ Py.str n +:+ ".png")) PNG None);;
  (* Standard names *)
  copy_png "icon-16.png" "favicon-16x16.png";;
  copy_png "icon-32.png" "favicon-32x32.png";;
  copy_png "icon-192.png" "android-chrome-192x192.png";;
  copy_png "icon-512.png" "android-chrome-512x512.png";;
  (* Multi-size ICO *)
  (im ← Image_open (in_out "icon-64.png");
   save im (in_out "favicon.ico") ICO
     (Some [(16, 16); (24, 24); (32, 32); (48, 48); (64, 64)]));;
  (* Apple touch icon *)
  (im ← apple_icon 180; save im (in_out "apple-touch-icon.png") PNG None);;
  write_text (in_out "favicon.svg") (Literal svg);;
  write_text (in_out "safari-pinned-tab.svg") (Literal pinned_tab_svg);;
  write_text (in_out "site.webmanifest") (JsonDumps manifest 2).

End Favicons.

(** ** Pixels *)
Module Raster.
Import Pillow.

(** A pixel has one value per band; a raster gives the pixel at (x, y). *)
Definition pixel : Type := list Z.
Definition raster : Type := Z -> Z -> pixel.

(** What the script does not fix: which pixels Pillow's rasteriser covers
    for a shape, its blur kernel, and how [Image.composite] mixes two
    pixels under a mask.  Every statement about pixels below holds for all
    choices of these. *)
Record backend : Type := Backend {
  ellipse_fill : list Py.num -> Z -> Z -> bool;
  ellipse_outline : list Py.num -> Z -> Z -> Z -> bool;
  rrect_fill : list Py.num -> Z -> Z -> Z -> bool;
  rrect_outline : list Py.num -> Z -> Z -> Z -> Z -> bool;
  blur : Z -> Z * Z -> raster -> raster;
  blend : pixel -> pixel -> pixel -> pixel
}.

(** Band values are stored in 8 bits. *)
Definition clip8 (v : Z) : Z := Z.max 0 (Z.min 255 v).

(** A shape drawn by [ImageDraw]: the fill first, then the outline when one
    is given, differs from the fill and has a non-zero width. *)
Definition paint (fill_mask outline_mask : Z -> Z -> bool)
    (fill outline : option color) (width : Z) (under : raster) : raster :=
  fun x y =>
    let filled :=
      match fill with
      | Some c => if fill_mask x y then c else under x y
      | None => under x y
      end in
    match outline with
    | Some c =>
        if negb (bool_decide (outline = fill)) && negb (width =? 0)
           && outline_mask x y
        then c else filled
    | None => filled
    end.

(** Pillow's rounded division by 255 on 16 and 32 bit values. *)
Definition div255 (a : Z) : Z := Z.shiftr (Z.shiftr a 8 + a) 8.

(** [alpha_composite] on one pixel, in Pillow's integer arithmetic with 7
    bits of extra precision: [src] over [dst]. *)
Definition over (dst src : pixel) : pixel :=
  match dst, src with
  | [dr; dg; db; da], [sr; sg; sb; sa] =>
      if sa =? 0 then dst
      else
        let blend := da * (255 - sa) in
        let outa255 := sa * 255 + blend in
        let coef1 := sa * 255 * 255 * 128 / outa255 in
        let coef2 := 255 * 128 - coef1 in
        let ch (s d : Z) :=
          Z.shiftr (div255 (s * coef1 + d * coef2 + 128 * 128)) 7 in
        [ch sr dr; ch sg dg; ch sb db; div255 (outa255 + 128)]
  | _, _ => dst
  end.

Fixpoint denote (B : backend) (im : image) : raster :=
  match im with
  | New _ _ _ c => fun _ _ => c
  | DrawEllipse im box fill outline width =>
      paint (ellipse_fill B box) (ellipse_outline B box width)
        fill outline width (denote B im)
  | DrawRoundedRectangle im box r fill outline width =>
      paint (rrect_fill B box r) (rrect_outline B box r width)
        fill outline width (denote B im)
  | GaussianBlur r im =>
      (* a blur of radius 0 copies the image *)
      if r =? 0 then denote B im
      else fun x y => map clip8 (blur B r (size_of im) (denote B im) x y)
  | Point lut im =>
      fun x y =>
        imap (fun i v => nth (256 * i + Z.to_nat v)%nat lut 0)
          (denote B im x y)
  | AlphaComposite im src (dx, dy) =>
      fun x y =>
        let '(sw, sh) := size_of src in
        if (dx <=? x) && (x <? dx + sw) && (dy <=? y) && (y <? dy + sh)
        then over (denote B im x y) (denote B src (x - dx) (y - dy))
        else denote B im x y
  | Composite im1 im2 mask =>
      fun x y =>
        blend B (denote B im1 x y) (denote B im2 x y) (denote B mask x y)
  | PutAlpha im alpha =>
      fun x y =>
        match denote B im x y with
        | [r; g; b; _] => [r; g; b; hd 0 (denote B alpha x y)]
        | p => p
        end
  end.

(** A hard-edged rasteriser that covers the pixels whose corner lies in
    the bounding box, with no smoothing; it serves as a concrete backend. *)
Definition to_float (n : Py.num) : Py.float :=
  match n with Py.Int z => Py.of_int z | Py.Float x => x end.

Definition in_box (box : list Py.num) (x y : Z) : bool :=
  match box with
  | [x0; y0; x1; y1] =>
      SFleb (to_float x0) (Py.of_int x) && SFltb (Py.of_int x) (to_float x1)
      && SFleb (to_float y0) (Py.of_int y) && SFltb (Py.of_int y) (to_float y1)
  | _ => false
  end.

Definition box_backend : backend :=
  {| ellipse_fill := in_box;
     ellipse_outline := fun _ _ _ _ => false;
     rrect_fill := fun box _ => in_box box;
     rrect_outline := fun _ _ _ _ _ => false;
     blur := fun _ _ r => r;
     blend := fun p1 p2 m => if hd 0 m =? 0 then p2 else p1 |}.

End Raster.

(** ** Closed forms: what the script's functions leave in an image object *)
Module Effect.
Import Pillow Favicons.

Definition transparent : color := [0; 0; 0; 0].

(** The content of an object holding [base] after
    [draw_mushroom(d, cx, cy, s, with_eyes=, outline_px=)] on a handle [d]
    for it. *)
Definition drawn (base : image) (cx cy s : Py.float)
    (with_eyes : bool) (outline_px : Z) : image :=
  match draw_mushroom 0%nat cx cy s with_eyes outline_px (World [base] ∅) with
  | Ok _ w => default base (heap w !! 0%nat)
  | Raise _ => base
  end.

(** The image [render_icon(size, ring=ring)] returns, when it returns. *)
Definition rendered (size : Z) (ring : bool) : option image :=
  match render_icon size ring empty_world with
  | Ok r w => heap w !! r
  | Raise _ => None
  end.

Definition scale (size : Z) : Py.float := (#size / Py.lit 256 1)%py.
Definition center (size : Z) : Py.float := (#size / #2)%py.

Definition blank (size : Z) : image := New RGBA size size transparent.

(** The ring step of [render_icon]: the canvas the handle [d] draws on. *)
Definition ring_pad (size : Z) : Z := Py.int (#size * Py.lit 9 100)%py.
Definition ring_width (size : Z) : Z :=
  Z.max 2 (Py.int (#size * Py.lit 8 100)%py).
Definition ring_blur (size : Z) : Z :=
  Z.max 0 (Py.int (#size * Py.lit 4 1000)%py).

Definition ring_canvas (size : Z) : image :=
  DrawEllipse (blank size)
    [Py.Int (ring_pad size); Py.Int (ring_pad size);
     Py.Int (size - ring_pad size); Py.Int (size - ring_pad size)]
    None (Some RINGC) (ring_width size).

(** The shadow layer. *)
Definition shadow_blur (size : Z) : Z :=
  Z.max 1 (Py.int (#size * Py.lit 3 100)%py).

Definition fade (p : Z) : Z := Py.int (#p * Py.lit 22 100)%py.

Definition fade_table : list Z := map fade (map Z.of_nat (seq 0 256)).

Definition silhouette (size : Z) : image :=
  drawn (blank size) (center size) (center size) (scale size) false 0.

Definition soft_silhouette (size : Z) : image :=
  GaussianBlur (shadow_blur size) (silhouette size).

Definition shadow (size : Z) : image :=
  Point (fade_table ++ fade_table ++ fade_table ++ fade_table)
    (soft_silhouette size).

(** Outline width and eye flag by size, as [render_icon] picks them. *)
Definition detail (size : Z) : Z * bool :=
  if size <=? 23 then (1, false)
  else if size <=? 32 then (2, false)
  else if size <=? 47 then (1, false)
  else (0, true).

(** The table as the specification words it. *)
Definition detail_as_specified (size : Z) : Z * bool :=
  if size <=? 24 then (1, false)
  else if size <=? 32 then (2, false)
  else if size <=? 47 then (1, false)
  else (0, true).

(** The canvas on which the final [draw_mushroom] call draws. *)
Definition under_glyph (size : Z) (ring : bool) : image :=
  if ring then ring_canvas size
  else AlphaComposite (blank size) (shadow size) (0, 0).

Definition glyph_canvas (table : Z -> Z * bool) (size : Z) (ring : bool)
    : image :=
  drawn (under_glyph size ring) (center size) (center size) (scale size)
    (snd (table size)) (fst (table size)).

(** The image bound to [im] at [return im]. *)
Definition returned_canvas (size : Z) (ring : bool) : image :=
  if ring then
    AlphaComposite (GaussianBlur (ring_blur size) (ring_canvas size))
      (shadow size) (0, 0)
  else glyph_canvas detail size false.

(** The objects one call of [render_icon] allocates, in allocation order. *)
Definition objects (size : Z) (ring : bool) : list image :=
  if ring then
    [glyph_canvas detail size true; returned_canvas size true;
     silhouette size; soft_silhouette size; shadow size]
  else
    [returned_canvas size false;
     silhouette size; soft_silhouette size; shadow size].

(** Does an image expression, or one it was made from, use colour [c] in a
    drawing operation? *)
Fixpoint paints (c : color) (im : image) : bool :=
  match im with
  | New _ _ _ _ => false
  | DrawEllipse im _ fill outline _
  | DrawRoundedRectangle im _ _ fill outline _ =>
      bool_decide (fill = Some c) || bool_decide (outline = Some c)
      || paints c im
  | GaussianBlur _ im | Point _ im => paints c im
  | AlphaComposite im src _ => paints c im || paints c src
  | Composite im1 im2 mask => paints c im1 || paints c im2 || paints c mask
  | PutAlpha im alpha => paints c im || paints c alpha
  end.

(** The ring step as the specification words it: inset by 9% of size,
    stroke 8% of size but at least 2, in the accent colour, then a blur of
    strictly positive radius. *)
Definition ring_step_as_specified (size : Z) (canvas : image) : Prop :=
  exists radius,
    0 < radius /\
    canvas =
      GaussianBlur radius
        (DrawEllipse (blank size)
           [Py.Int (9 * size / 100); Py.Int (9 * size / 100);
            Py.Int (size - 9 * size / 100); Py.Int (size - 9 * size / 100)]
           None (Some RINGC) (Z.max 2 (8 * size / 100))).

(** What the ring step does: the blur radius is 0.4% of size, rounded
    down. *)
Definition ring_step (size : Z) : image :=
  GaussianBlur (size / 250)
    (DrawEllipse (blank size)
       [Py.Int (9 * size / 100); Py.Int (9 * size / 100);
        Py.Int (size - 9 * size / 100); Py.Int (size - 9 * size / 100)]
       None (Some RINGC) (Z.max 2 (8 * size / 100))).

(** The percentages of [render_icon] agree with exact integer arithmetic. *)
Definition percent_exact (size : Z) : bool :=
  (ring_pad size =? 9 * size / 100)
  && (ring_width size =? Z.max 2 (8 * size / 100))
  && (ring_blur size =? size / 250)
  && (shadow_blur size =? Z.max 1 (3 * size / 100)).

(** [apple_icon(size)]: the size of the glyph it renders, where it puts
    it, and the images it builds. *)
Definition apple_glyph_size (size : Z) : Z :=
  Py.int (#size * Py.lit 70 100)%py.
Definition apple_offset (size : Z) : Z :=
  Py.int (#size * Py.lit 15 100)%py.

Definition apple_vignette (size : Z) : image :=
  DrawEllipse (New L size size [0])
    [Py.Int (- Py.int (#size * Py.lit 2 10)%py);
     Py.Int (- Py.int (#size * Py.lit 2 10)%py);
     Py.Int (Py.int (#size * Py.lit 12 10)%py);
     Py.Int (Py.int (#size * Py.lit 12 10)%py)]
    (Some [255]) None 1.

Definition apple_mask (size : Z) : image :=
  GaussianBlur (Py.int (#size * Py.lit 12 100)%py) (apple_vignette size).

Definition apple_lifted (size : Z) : image :=
  Composite (New RGBA size size [16; 22; 30; 255]) (New RGBA size size CARD)
    (apple_mask size).

Definition apple_corners (size : Z) : image :=
  DrawRoundedRectangle (New L size size [0])
    [Py.Int 0; Py.Int 0; Py.Int size; Py.Int size]
    (Py.int (#size * Py.lit 22 100)%py) (Some [255]) None 1.

(** The image [apple_icon(size)] returns. *)
Definition apple_canvas (size : Z) : image :=
  PutAlpha
    (AlphaComposite
       (AlphaComposite (New RGBA size size CARD) (apple_lifted size) (0, 0))
       (returned_canvas (apple_glyph_size size) true)
       (apple_offset size, apple_offset size))
    (apple_corners size).

(** The objects one call of [apple_icon] allocates, in allocation order. *)
Definition apple_objects (size : Z) : list image :=
  [New RGBA size size CARD; apple_vignette size; apple_mask size;
   New RGBA size size [16; 22; 30; 255]; apple_lifted size]
  ++ objects (apple_glyph_size size) true
  ++ [apple_canvas size; apple_corners size].

(** The glyph of the touch icon has a valid size and lies inside the card. *)
Definition apple_fits (size : Z) : bool :=
  (0 <=? apple_glyph_size size) && (0 <=? apple_offset size)
  && (apple_offset size + apple_glyph_size size <=? size).

(** The files the script writes, in the order it writes them. *)
Definition icon_file (n : Z) : string * file :=
  (in_out ("icon-" +:+ Py.str n +:+ ".png"),
   ImageFile PNG (returned_canvas n (64 <=? n)) None).

Definition output_files : list (string * file) :=
  map icon_file icon_sizes ++
  [(in_out "favicon-16x16.png", ImageFile PNG (returned_canvas 16 false) None);
   (in_out "favicon-32x32.png", ImageFile PNG (returned_canvas 32 false) None);
   (in_out "android-chrome-192x192.png",
    ImageFile PNG (returned_canvas 192 true) None);
   (in_out "android-chrome-512x512.png",
    ImageFile PNG (returned_canvas 512 true) None);
   (in_out "favicon.ico",
    ImageFile ICO (returned_canvas 64 true)
      (Some [(16, 16); (24, 24); (32, 32); (48, 48); (64, 64)]));
   (in_out "apple-touch-icon.png", ImageFile PNG (apple_canvas 180) None);
   (in_out "favicon.svg", TextFile (Literal svg));
   (in_out "safari-pinned-tab.svg", TextFile (Literal pinned_tab_svg));
   (in_out "site.webmanifest", TextFile (JsonDumps manifest 2))].

(** Writing the files one after the other into a directory. *)
Definition write_all (files : list (string * file))
    (d : gmap string file) : gmap string file :=
  foldl (fun m kv => <[kv.1 := kv.2]> m) d files.

(** The objects the whole run allocates, in allocation order. *)
Definition generate_objects : list image :=
  mjoin (map (fun n => objects n (64 <=? n)) icon_sizes)
  ++ [returned_canvas 16 false; returned_canvas 32 false;
      returned_canvas 192 true; returned_canvas 512 true;
      returned_canvas 64 true]
  ++ apple_objects 180.

(** Reading the manifest: the value of a member, the text of a string. *)
Definition member (key : string) (j : json) : option json :=
  match j with
  | JObject members => snd <$> List.find (fun kv => String.eqb (fst kv) key) members
  | _ => None
  end.

Definition items (j : json) : list json :=
  match j with JArray l => l | _ => [] end.

Definition text_of (j : option json) : string :=
  match j with Some (JString s) => s | _ => "" end.

(** The entries of the manifest's icon list. *)
Definition icons_of (j : json) : list json :=
  match member "icons" j with
  | Some a => items a
  | None => []
  end.

(** The world the script leaves when it starts with no image object and
    an empty output directory. *)
Definition generated : world :=
  Eval vm_compute in
    match generate empty_world with
    | Ok _ w => w
    | Raise _ => empty_world
    end.

End Effect.

Import Pillow Favicons Raster Effect.

(** * Proofs *)

#[global] Opaque Py.fmul Py.fdiv Py.fadd Py.fsub Py.of_int Py.int Py.lit.

(** ** Running the primitives *)
Section Run.

Lemma bind_run {A B} (m : M A) (f : A -> M B) w a w' :
  m w = Ok a w' -> (m ≫= f) w = f a w'.
Proof. intros H. unfold mbind, M_bind. now rewrite H. Qed.

Lemma bind_raise {A B} (m : M A) (f : A -> M B) w e :
  m w = Raise e -> (m ≫= f) w = Raise e.
Proof. intros H. unfold mbind, M_bind. now rewrite H. Qed.

Lemma content_run r w im :
  heap w !! r = Some im -> content r w = Ok im w.
Proof. intros H. unfold content. now rewrite H. Qed.

Lemma update_run r f w im :
  heap w !! r = Some im ->
  update r f w = Ok tt (World (<[r := f im]> (heap w)) (disk w)).
Proof. intros H. unfold update. now rewrite H. Qed.

Lemma Image_new_run m n c w :
  0 <= n <= 536870910 ->
  Image_new m (n, n) c w
  = Ok (length (heap w)) (World (heap w ++ [New m n n c]) (disk w)).
Proof.
  intros [H0 H1]. unfold Image_new.
  change ((2 ^ 31 - 1) / 4 - 1) with 536870910.
  destruct (Z.ltb_spec n 0); [lia|].
  destruct (Z.leb_spec (2 ^ 31) n); [lia|].
  destruct (Z.ltb_spec 536870910 n); [lia|]. reflexivity.
Qed.

(** Outside the accepted sizes the exception depends on the size only. *)
Lemma Image_new_rejects m n c :
  n < 0 \/ 536870910 < n ->
  exists e, forall w, Image_new m (n, n) c w = Raise e.
Proof.
  intros H. unfold Image_new.
  change ((2 ^ 31 - 1) / 4 - 1) with 536870910.
  destruct (Z.ltb_spec n 0); [now exists ValueError |].
  destruct (Z.leb_spec (2 ^ 31) n); [now exists OverflowError |].
  destruct (Z.ltb_spec 536870910 n); [now exists MemoryError | lia].
Qed.

Lemma lookup_heap_at (h l : list image) k :
  (h ++ l) !! (length h + k)%nat = l !! k.
Proof. rewrite lookup_app_r by lia. f_equal. lia. Qed.

Lemma insert_heap_at (h l : list image) k x :
  <[(length h + k)%nat := x]> (h ++ l) = h ++ <[k := x]> l.
Proof. apply insert_app_r. Qed.

Lemma lookup_heap_first (h l : list image) x :
  (h ++ x :: l) !! length h = Some x.
Proof. now apply list_lookup_middle. Qed.

Lemma insert_heap_first (h l : list image) x y :
  <[length h := y]> (h ++ x :: l) = h ++ y :: l.
Proof.
  replace (length h) with (length h + 0)%nat by lia.
  now rewrite insert_heap_at.
Qed.

Lemma draw_mushroom_run d cx cy s e o w base :
  heap w !! d = Some base ->
  draw_mushroom d cx cy s e o w
  = Ok tt (World (<[d := drawn base cx cy s e o]> (heap w)) (disk w)).
Proof.
  intros H. pose proof (lookup_lt_Some _ _ _ H) as Hd.
  unfold drawn, draw_mushroom, ellipse, rounded_rectangle.
  destruct (Py.truthy o), e; cbn;
    repeat (erewrite bind_run;
            [| first [ apply update_run; first [ exact H | cbn; apply list_lookup_insert_eq; rewrite ?length_insert; exact Hd ] | reflexivity ] ];
            cbn; rewrite ?list_insert_insert_eq);
    try (erewrite update_run by (first [ exact H | cbn; apply list_lookup_insert_eq; rewrite ?length_insert; exact Hd ]));
    cbn; rewrite ?list_insert_insert_eq; try reflexivity.
Qed.

End Run.

(** Keeping the heap in the form [h ++ [o1; ...; on]] and reading it. *)
Ltac heap_norm :=
  cbn [heap disk];
  rewrite <- ?app_assoc; rewrite ?length_app;
  cbn [length app]; rewrite <- ?Nat.add_assoc; cbn [Nat.add];
  rewrite ?insert_heap_first, ?insert_heap_at;
  cbn [list_insert insert].

Ltac heap_lookup :=
  first [ apply lookup_heap_first
        | rewrite lookup_heap_at; reflexivity ].

(** Reading a directory written by a chain of inserts. *)
Ltac disk_lookup :=
  cbn [heap disk]; rewrite ?lookup_insert;
  repeat (let Hk := fresh "Hk" in
          case_decide as Hk;
          [ first [ exfalso; vm_compute in Hk; discriminate Hk | reflexivity ]
          | first [ exfalso; apply Hk; vm_compute; reflexivity | clear Hk ] ]).

(** ** Running [render_icon] *)
Section RenderIcon.

(** The thresholds of [render_icon] written as one table. *)
Lemma detail_code size :
  (if size <=? 32 then ((if 24 <=? size then 2 else 1), false)
   else if size <? 48 then (1, false) else (0, true))
  = detail size.
Proof.
  unfold detail.
  repeat match goal with
         | |- context [ ?a <=? ?b ] => destruct (Z.leb_spec a b)
         | |- context [ ?a <? ?b ] => destruct (Z.ltb_spec a b)
         end; try reflexivity; lia.
Qed.

Lemma filter_GaussianBlur_run r radius w im :
  heap w !! r = Some im ->
  filter_GaussianBlur r radius w
  = Ok (length (heap w)) (World (heap w ++ [GaussianBlur radius im]) (disk w)).
Proof.
  intros H. unfold filter_GaussianBlur.
  erewrite bind_run by (apply content_run; exact H). reflexivity.
Qed.

Lemma Image_eval_run r f w im :
  heap w !! r = Some im -> mode_of im = RGBA ->
  Image_eval r f w
  = Ok (length (heap w))
      (World (heap w ++
                [Point (let t := map f (map Z.of_nat (seq 0 256)) in
                        t ++ t ++ t ++ t) im]) (disk w)).
Proof.
  intros H Hm. unfold Image_eval.
  erewrite bind_run by (apply content_run; exact H).
  rewrite Hm. reflexivity.
Qed.

Lemma alpha_composite_run im src dest w c s :
  heap w !! im = Some c -> heap w !! src = Some s ->
  alpha_composite im src dest w
  = Ok tt (World (<[im := AlphaComposite c s dest]> (heap w)) (disk w)).
Proof.
  intros Hc Hs. unfold alpha_composite.
  erewrite bind_run by (apply content_run; exact Hs).
  now rewrite (update_run _ _ _ _ Hc).
Qed.

Lemma ImageDraw_Draw_run r w im :
  heap w !! r = Some im -> ImageDraw_Draw r w = Ok r w.
Proof.
  intros H. unfold ImageDraw_Draw.
  erewrite bind_run by (apply content_run; exact H). reflexivity.
Qed.

Lemma mode_of_drawn base cx cy s e o :
  mode_of (drawn base cx cy s e o) = mode_of base.
Proof.
  unfold drawn, draw_mushroom, ellipse, rounded_rectangle.
  destruct (Py.truthy o), e; reflexivity.
Qed.

Lemma render_icon_run size ring w :
  0 <= size <= 536870910 ->
  render_icon size ring w
  = Ok (length (heap w) + (if ring then 1 else 0))%nat
      (World (heap w ++ objects size ring) (disk w)).
Proof.
  intros Hs. destruct w as [h dk]. unfold render_icon.
  erewrite bind_run by (apply Image_new_run; exact Hs). cbn [heap disk].
  erewrite bind_run by (eapply ImageDraw_Draw_run; cbn [heap]; apply list_lookup_middle; reflexivity).
  rewrite detail_code.
  destruct ring.
  - unfold ellipse.
    erewrite bind_run.
    2:{ erewrite bind_run by (apply update_run; cbn [heap]; apply lookup_heap_first).
        cbn [heap disk]. rewrite insert_heap_first.
        apply filter_GaussianBlur_run. cbn [heap]. apply lookup_heap_first. }
    heap_norm.
    erewrite bind_run by (apply Image_new_run; exact Hs). heap_norm.
    erewrite bind_run by (eapply ImageDraw_Draw_run; cbn [heap]; heap_lookup).
    erewrite bind_run by (eapply draw_mushroom_run; cbn [heap]; heap_lookup).
    heap_norm.
    erewrite bind_run by (eapply filter_GaussianBlur_run; cbn [heap]; heap_lookup).
    heap_norm.
    erewrite bind_run
      by (eapply Image_eval_run; cbn [heap];
          [heap_lookup | cbn [mode_of]; now rewrite mode_of_drawn]).
    heap_norm.
    erewrite bind_run by (eapply alpha_composite_run; cbn [heap]; heap_lookup).
    heap_norm.
    destruct (detail size) as [outline_px eyes] eqn:Hd.
    erewrite bind_run by (eapply draw_mushroom_run; cbn [heap]; heap_lookup).
    heap_norm.
    unfold objects, glyph_canvas, returned_canvas, under_glyph. rewrite Hd.
    reflexivity.
  - erewrite bind_run by reflexivity.
    erewrite bind_run by (apply Image_new_run; exact Hs). heap_norm.
    erewrite bind_run by (eapply ImageDraw_Draw_run; cbn [heap]; heap_lookup).
    erewrite bind_run by (eapply draw_mushroom_run; cbn [heap]; heap_lookup).
    heap_norm.
    erewrite bind_run by (eapply filter_GaussianBlur_run; cbn [heap]; heap_lookup).
    heap_norm.
    erewrite bind_run
      by (eapply Image_eval_run; cbn [heap];
          [heap_lookup | cbn [mode_of]; now rewrite mode_of_drawn]).
    heap_norm.
    erewrite bind_run by (eapply alpha_composite_run; cbn [heap]; heap_lookup).
    heap_norm.
    destruct (detail size) as [outline_px eyes] eqn:Hd.
    erewrite bind_run by (eapply draw_mushroom_run; cbn [heap]; heap_lookup).
    heap_norm.
    unfold objects, glyph_canvas, returned_canvas, under_glyph, glyph_canvas.
    rewrite Hd. rewrite Nat.add_0_r.
    reflexivity.
Qed.

Lemma render_icon_rejects size ring :
  size < 0 \/ 536870910 < size ->
  exists e, forall w, render_icon size ring w = Raise e.
Proof.
  intros H.
  destruct (Image_new_rejects RGBA size [0; 0; 0; 0] H) as [e He].
  exists e. intros w. unfold render_icon.
  now rewrite (bind_raise _ _ _ _ (He w)).
Qed.

End RenderIcon.

(** Checking a property on an initial segment of the integers. *)
Lemma forall_upto (P : Z -> bool) (n : nat) :
  forallb P (map Z.of_nat (seq 0 n)) = true ->
  forall z, 0 <= z < Z.of_nat n -> P z = true.
Proof.
  intros H z Hz. rewrite forallb_forall in H. apply H.
  apply in_map_iff. exists (Z.to_nat z). split; [lia|].
  apply in_seq. lia.
Qed.

(** ** Pixels of the rendered images *)
Section Pixels.

Variable B : backend.

Lemma size_of_drawn base cx cy s e o :
  size_of (drawn base cx cy s e o) = size_of base.
Proof.
  unfold drawn, draw_mushroom, ellipse, rounded_rectangle.
  destruct (Py.truthy o), e; reflexivity.
Qed.

(** A shape leaves a pixel alone or sets it to its fill or outline colour. *)
Lemma paint_cases fm om fill outline width under x y :
  paint fm om fill outline width under x y = under x y
  \/ fill = Some (paint fm om fill outline width under x y)
  \/ outline = Some (paint fm om fill outline width under x y).
Proof.
  unfold paint. destruct fill, outline; repeat case_match; auto.
Qed.

(** Without eyes, [draw_mushroom] writes only the fill and the outline
    colour. *)
Lemma drawn_without_eyes base cx cy s o x y :
  denote B (drawn base cx cy s false o) x y = denote B base x y
  \/ denote B (drawn base cx cy s false o) x y = FG
  \/ denote B (drawn base cx cy s false o) x y = OUTL.
Proof.
  unfold drawn, draw_mushroom, ellipse, rounded_rectangle.
  destruct (Py.truthy o);
    match goal with
    | |- context [ denote B ?t x y ] =>
        let t' := eval cbv [mbind M_bind update mret M_ret heap disk lookup
                            list_lookup insert list_insert default
                            from_option id] in t in
        change t with t'
    end; cbn [denote].
  all: repeat match goal with
    | |- context [ paint ?fm ?om ?f ?ol ?w ?u ?a ?b ] =>
        let H := fresh in
        destruct (paint_cases fm om f ol w u a b) as [H | [H | H]];
        [ rewrite H; clear H
        | first [ discriminate H | apply (inj Some) in H; rewrite <- H; auto ]
        | first [ discriminate H | apply (inj Some) in H; rewrite <- H; auto ] ]
    end; auto.
Qed.

Lemma imap_all {A} (P : Z -> Prop) (f : nat -> A -> Z) (l : list A) :
  (forall i v, P (f i v)) -> Forall P (imap f l).
Proof.
  revert f. induction l as [|a l IH]; intros f H; cbn; constructor.
  - apply H.
  - apply IH. intros i v. apply H.
Qed.

Lemma nth_all (P : Z -> Prop) (l : list Z) d k :
  Forall P l -> P d -> P (nth k l d).
Proof.
  intros Hl Hd. revert k. induction Hl; intros [|k]; cbn; auto.
Qed.

Lemma fade_table_range : Forall (fun v => 0 <= v <= 56) fade_table.
Proof.
  apply Forall_forall. intros v Hv.
  assert (Hb : forallb (fun v => (0 <=? v) && (v <=? 56)) fade_table = true)
    by (vm_compute; reflexivity).
  rewrite forallb_forall in Hb. specialize (Hb v).
  rewrite <- list_elem_of_In in Hb. specialize (Hb Hv).
  apply andb_true_iff in Hb as [H1 H2].
  apply Z.leb_le in H1, H2. lia.
Qed.

(** The shadow layer holds no band value above 56. *)
Lemma shadow_range size x y :
  Forall (fun v => 0 <= v <= 56) (denote B (shadow size) x y).
Proof.
  unfold shadow. cbn [denote]. apply imap_all. intros i v.
  apply nth_all; [|lia].
  repeat (apply Forall_app; split); apply fade_table_range.
Qed.

(** Compositing a faint pixel over a transparent or ring-coloured one does
    not give an opaque pixel. *)
Lemma over_faint dst s :
  dst = transparent \/ dst = RINGC ->
  Forall (fun v => 0 <= v <= 56) s ->
  nth 3 (over dst s) 0 <> 255.
Proof.
  intros Hd Hs.
  destruct s as [|sr [|sg [|sb [|sa [|? ?]]]]];
    try (destruct Hd as [-> | ->]; cbn; lia).
  assert (Ha : 0 <= sa <= 56).
  { do 3 (apply Forall_cons in Hs as [_ Hs]).
    now apply Forall_cons in Hs as [Hs _]. }
  destruct Hd as [-> | ->]; unfold over, transparent, RINGC;
    destruct (Z.eqb_spec sa 0); cbn [nth]; try lia.
  all: unfold div255; rewrite !Z.shiftr_div_pow2 by lia;
    change (2 ^ 8) with 256; Z.div_mod_to_equations; lia.
Qed.

Lemma nth_fade_table k :
  (k < 256)%nat -> nth k fade_table 0 = fade (Z.of_nat k).
Proof.
  intros H. unfold fade_table.
  rewrite (nth_indep _ 0 (fade (Z.of_nat 0)))
    by (rewrite !length_map, length_seq; exact H).
  rewrite map_nth. f_equal. rewrite map_nth. f_equal.
  now rewrite seq_nth.
Qed.

(** Band [i] of a pixel is looked up in the [i]-th copy of the table. *)
Lemma nth_fade_band i v :
  (i < 4)%nat -> 0 <= v <= 255 ->
  nth (256 * i + Z.to_nat v)
    (fade_table ++ fade_table ++ fade_table ++ fade_table) 0
  = fade v.
Proof.
  intros Hi Hv.
  assert (L : length fade_table = 256%nat)
    by (unfold fade_table; now rewrite !length_map, length_seq).
  assert (E : nth (Z.to_nat v) fade_table 0 = fade v)
    by (rewrite nth_fade_table by lia; f_equal; lia).
  destruct i as [|[|[|[|?]]]]; try lia.
  - replace (256 * 0 + Z.to_nat v)%nat with (Z.to_nat v) by lia.
    now rewrite app_nth1 by lia.
  - replace (256 * 1 + Z.to_nat v)%nat
      with (length fade_table + Z.to_nat v)%nat by lia.
    rewrite app_nth2_plus. now rewrite app_nth1 by lia.
  - replace (256 * 2 + Z.to_nat v)%nat
      with (length fade_table + (length fade_table + Z.to_nat v))%nat by lia.
    rewrite !app_nth2_plus. now rewrite app_nth1 by lia.
  - replace (256 * 3 + Z.to_nat v)%nat
      with (length fade_table
            + (length fade_table + (length fade_table + Z.to_nat v)))%nat
      by lia.
    now rewrite !app_nth2_plus.
Qed.

Lemma size_of_shadow size : size_of (shadow size) = (size, size).
Proof.
  unfold shadow, soft_silhouette, silhouette. cbn [size_of].
  now rewrite size_of_drawn.
Qed.

Lemma clip8_range v : 0 <= clip8 v <= 255.
Proof. unfold clip8. lia. Qed.

(** Whatever it is asked to draw, [draw_mushroom] writes only the fill, the
    outline and the eye colour. *)
Lemma drawn_pixel_cases base cx cy s e o x y :
  denote B (drawn base cx cy s e o) x y = denote B base x y
  \/ denote B (drawn base cx cy s e o) x y = FG
  \/ denote B (drawn base cx cy s e o) x y = OUTL
  \/ denote B (drawn base cx cy s e o) x y = EYES.
Proof.
  unfold drawn, draw_mushroom, ellipse, rounded_rectangle.
  destruct (Py.truthy o), e;
    match goal with
    | |- context [ denote B ?t x y ] =>
        let t' := eval cbv [mbind M_bind update mret M_ret heap disk lookup
                            list_lookup insert list_insert default
                            from_option id] in t in
        change t with t'
    end; cbn [denote].
  all: repeat match goal with
    | |- context [ paint ?fm ?om ?f ?ol ?w ?u ?a ?b ] =>
        let H := fresh in
        destruct (paint_cases fm om f ol w u a b) as [H | [H | H]];
        [ rewrite H; clear H
        | first [ discriminate H | apply (inj Some) in H; rewrite <- H; auto ]
        | first [ discriminate H | apply (inj Some) in H; rewrite <- H; auto ] ]
    end; auto.
Qed.

(** A faint pixel composited over a transparent one stays faint. *)
Lemma over_transparent_faint s :
  Forall (fun v => 0 <= v <= 56) s ->
  Forall (fun v => 0 <= v <= 56) (over transparent s).
Proof.
  intros Hs. unfold transparent.
  destruct s as [|sr [|sg [|sb [|sa [|? ?]]]]];
    try (cbn; repeat constructor; lia).
  pose proof Hs as Hs'.
  apply Forall_cons in Hs' as [Hr Hs']. apply Forall_cons in Hs' as [Hg Hs'].
  apply Forall_cons in Hs' as [Hb Hs']. apply Forall_cons in Hs' as [Ha _].
  unfold over. cbv zeta.
  destruct (Z.eqb_spec sa 0); [repeat constructor; lia |].
  assert (E : sa * 255 * 255 * 128 / (sa * 255 + 0 * (255 - sa))
              = 255 * 128)
    by (symmetry; apply Z.div_unique_exact; lia).
  rewrite E. unfold div255. rewrite !Z.shiftr_div_pow2 by lia.
  change (2 ^ 8) with 256. change (2 ^ 7) with 128.
  repeat constructor; Z.div_mod_to_equations; lia.
Qed.

(** [int(p*0.22)] on the band values, against exact integer arithmetic. *)
Lemma fade_exact_upto :
  forallb (fun p => fade p =? 22 * p / 100) (map Z.of_nat (seq 0 256)) = true.
Proof. vm_compute. reflexivity. Qed.

Lemma fade_exact p : 0 <= p <= 255 -> fade p = 22 * p / 100.
Proof.
  intros H. apply Z.eqb_eq.
  apply (forall_upto _ 256 fade_exact_upto p). lia.
Qed.

Lemma not_eyes_by_alpha (p : pixel) : nth 3 p 0 <> 255 -> p <> EYES.
Proof. intros H ->. now apply H. Qed.

End Pixels.

(** ** Integer forms of the percentages *)
Section Percent.

Lemma percent_exact_upto :
  forallb percent_exact (map Z.of_nat (seq 0 1025)) = true.
Proof. vm_compute. reflexivity. Qed.

Lemma percent_exact_1024 size :
  0 <= size <= 1024 ->
  ring_pad size = 9 * size / 100
  /\ ring_width size = Z.max 2 (8 * size / 100)
  /\ ring_blur size = size / 250
  /\ shadow_blur size = Z.max 1 (3 * size / 100).
Proof.
  intros H.
  pose proof (forall_upto _ _ percent_exact_upto size ltac:(lia)) as E.
  unfold percent_exact in E.
  repeat (apply andb_true_iff in E as [E ?]).
  repeat match goal with H : (_ =? _) = true |- _ => apply Z.eqb_eq in H end.
  auto.
Qed.

Lemma returned_canvas_ring size :
  0 <= size <= 1024 ->
  returned_canvas size true
  = AlphaComposite (ring_step size) (shadow size) (0, 0).
Proof.
  intros H. destruct (percent_exact_1024 size H) as (Hp & Hw & Hb & _).
  unfold returned_canvas, ring_step, ring_canvas.
  now rewrite Hp, Hw, Hb.
Qed.

End Percent.

(** ** The generator as a whole *)
Section Generate.

Lemma generate_run : generate empty_world = Ok tt generated.
Proof. vm_compute. reflexivity. Qed.

Lemma rendered_eq size ring :
  0 <= size <= 536870910 ->
  rendered size ring = Some (returned_canvas size ring).
Proof.
  intros H. unfold rendered. rewrite render_icon_run by exact H.
  cbn [heap empty_world app]. destruct ring; reflexivity.
Qed.

End Generate.

(** * The claims *)

(** C1.  [render_icon(256, ring=True)] is specified to return an image with
    eye-coloured pixels and a visible ring.  The code draws the ring, then
    rebinds [im] to the blurred copy while the handle [d] keeps drawing on
    the first canvas: the image it returns (object 1) is the blurred ring
    under the shadow, into which nothing was ever drawn with the eye colour;
    the glyph and its eyes are on object 0, which is dropped. *)
Theorem C1_eyes_missed_at_256 :
  render_icon 256 true empty_world = Ok 1%nat (World (objects 256 true) ∅)
  /\ objects 256 true !! 1%nat = Some (returned_canvas 256 true)
  /\ size_of (returned_canvas 256 true) = (256, 256)
  /\ paints RINGC (returned_canvas 256 true) = true
  /\ paints EYES (returned_canvas 256 true) = false
  /\ objects 256 true !! 0%nat = Some (glyph_canvas detail 256 true)
  /\ paints EYES (glyph_canvas detail 256 true) = true.
Proof.
  split; [apply (render_icon_run 256 true empty_world); lia |].
  repeat split; vm_compute; reflexivity.
Qed.

(** C2 as stated fails at size 24: the specification gives sizes up to 24 a
    1px outline, the code gives size 24 a 2px outline. *)
Lemma C2_size_24_has_outline_2 :
  rendered 24 false <> Some (glyph_canvas detail_as_specified 24 false).
Proof.
  rewrite rendered_eq by lia. intros H. apply (inj Some) in H.
  vm_compute in H. discriminate H.
Qed.

(** C2, amended.  Whenever [render_icon] returns, and it returns for every
    size from 0 up to the largest canvas Pillow accepts, the canvas its
    handle [d] draws on (the first object it allocates) ends as
    [draw_mushroom] leaves it with the outline width and eye flag of
    [detail]: width 1 without eyes up to size 23, width 2 without eyes for
    24..32, width 1 without eyes for 33..47, width 0 with eyes from 48. *)
Theorem C2_detail_by_size (size : Z) (ring : bool) (w : world) :
  match render_icon size ring w with
  | Ok _ w' =>
      heap w' !! length (heap w) = Some (glyph_canvas detail size ring)
  | Raise _ => size < 0 \/ 536870910 < size
  end.
Proof.
  destruct (Z.lt_ge_cases size 0) as [Hn | Hn].
  { destruct (render_icon_rejects size ring (or_introl Hn)) as [e He].
    rewrite He. now left. }
  destruct (Z.lt_ge_cases 536870910 size) as [Hl | Hl].
  { destruct (render_icon_rejects size ring (or_intror Hl)) as [e He].
    rewrite He. now right. }
  rewrite render_icon_run by lia. cbn [heap].
  destruct ring; apply lookup_heap_first.
Qed.

(** C4.  For every size from 0 to 47 and either value of [ring],
    [render_icon] returns an image none of whose pixels has the eye colour,
    whatever the rasteriser and the blur kernel. *)
Theorem C4_no_eye_pixel_below_48
    (B : backend) (size : Z) (ring : bool) (w : world) :
  0 <= size <= 47 ->
  exists r w' im,
    render_icon size ring w = Ok r w'
    /\ heap w' !! r = Some im
    /\ forall x y, denote B im x y <> EYES.
Proof.
  intros Hs.
  eexists _, _, (returned_canvas size ring).
  split; [apply render_icon_run; lia |]. cbn [heap].
  split; [destruct ring; rewrite lookup_heap_at; reflexivity |].
  intros x y. destruct ring.
  - rewrite returned_canvas_ring by lia. unfold ring_step.
    replace (size / 250) with 0 by (symmetry; apply Z.div_small; lia).
    apply not_eyes_by_alpha.
    cbn [denote Z.eqb]. destruct (size_of (shadow size)) as [sw sh].
    match goal with
    | |- context [ paint ?fm ?om ?f ?ol ?wd ?u x y ] =>
        destruct (paint_cases fm om f ol wd u x y) as [H | [H | H]];
          [ rewrite H | discriminate H | apply (inj Some) in H; rewrite <- H ]
    end; cbn [denote blank].
    all: case_match; try (cbn; lia);
      apply over_faint; auto using shadow_range.
  - unfold returned_canvas, glyph_canvas.
    replace (snd (detail size)) with false
      by (unfold detail; repeat case_match; try reflexivity; lia).
    destruct (drawn_without_eyes B (under_glyph size false) (center size)
                (center size) (scale size) (fst (detail size)) x y)
      as [-> | [-> | ->]]; try discriminate.
    apply not_eyes_by_alpha. unfold under_glyph.
    cbn [denote blank]. destruct (size_of (shadow size)) as [sw sh].
    case_match; try (cbn; lia).
    apply over_faint; auto using shadow_range.
Qed.

Lemma C4_witness :
  exists r w' im,
    render_icon 16 false empty_world = Ok r w'
    /\ heap w' !! r = Some im
    /\ forall x y, denote box_backend im x y <> EYES.
Proof.
  apply (C4_no_eye_pixel_below_48 box_backend 16 false empty_world). lia.
Defined.

(** C5 as stated fails at size 64, a size the script renders with a ring:
    the blur applied after the ring has radius [max(0, int(64*0.004))] = 0,
    not a strictly positive one. *)
Lemma C5_no_blur_at_64 :
  ~ exists canvas sh dest,
      rendered 64 true = Some (AlphaComposite canvas sh dest)
      /\ ring_step_as_specified 64 canvas.
Proof.
  intros (canvas & sh & dest & Hr & radius & Hpos & Hc).
  rewrite rendered_eq, returned_canvas_ring in Hr by lia.
  apply (inj Some) in Hr. unfold ring_step in Hr.
  injection Hr as <- _ _. injection Hc as <-. vm_compute in Hpos.
  discriminate Hpos.
Qed.

(** C5, amended.  For every size Pillow accepts, [render_icon] with
    [ring=True] returns the shadow composited over the canvas of the ring
    step: an ellipse outline inset by [int(size*0.09)], of width
    [max(2, int(size*0.08))], so never less than 2, in the accent colour,
    then blurred with radius [max(0, int(size*0.004))].  That radius is never
    negative, but it is not strictly positive: it is 0 for every size below
    250, where the blur copies the canvas.  Up to size 1024 the three numbers
    are 9%, 8% and 0.4% of size rounded down, and the radius is positive from
    250 on. *)
Theorem C5_ring_step (size : Z) (w : world) :
  0 <= size <= 536870910 ->
  let pad := Py.int (#size * Py.lit 9 100)%py in
  let width := Z.max 2 (Py.int (#size * Py.lit 8 100)%py) in
  let radius := Z.max 0 (Py.int (#size * Py.lit 4 1000)%py) in
  exists r w' sh,
    render_icon size true w = Ok r w'
    /\ heap w' !! r
       = Some (AlphaComposite
                 (GaussianBlur radius
                    (DrawEllipse (New RGBA size size [0; 0; 0; 0])
                       [Py.Int pad; Py.Int pad;
                        Py.Int (size - pad); Py.Int (size - pad)]
                       None (Some RINGC) width))
                 sh (0, 0))
    /\ 2 <= width /\ 0 <= radius
    /\ (size < 250 -> radius = 0)
    /\ (size <= 1024 ->
        pad = 9 * size / 100 /\ width = Z.max 2 (8 * size / 100)
        /\ radius = size / 250 /\ (250 <= size -> 0 < radius)).
Proof.
  intros Hs pad width radius. exists (length (heap w) + 1)%nat.
  eexists _, (shadow size).
  split; [apply render_icon_run; exact Hs |]. cbn [heap].
  split; [rewrite lookup_heap_at; reflexivity |].
  split; [unfold width; lia |]. split; [unfold radius; lia |].
  assert (E : size <= 1024 ->
              pad = 9 * size / 100 /\ width = Z.max 2 (8 * size / 100)
              /\ radius = size / 250).
  { intros H. destruct (percent_exact_1024 size ltac:(lia)) as (Hp & Hw & Hb & _).
    auto. }
  split.
  - intros H. destruct (E ltac:(lia)) as (_ & _ & ->).
    apply Z.div_small. lia.
  - intros H. destruct (E H) as (Hp & Hw & Hr). repeat split; try assumption.
    intros H250. rewrite Hr. apply Z.div_str_pos. lia.
Qed.

Lemma C5_witness :
  let pad := Py.int (#256 * Py.lit 9 100)%py in
  let width := Z.max 2 (Py.int (#256 * Py.lit 8 100)%py) in
  let radius := Z.max 0 (Py.int (#256 * Py.lit 4 1000)%py) in
  exists r w' sh,
    render_icon 256 true empty_world = Ok r w'
    /\ heap w' !! r
       = Some (AlphaComposite
                 (GaussianBlur radius
                    (DrawEllipse (New RGBA 256 256 [0; 0; 0; 0])
                       [Py.Int pad; Py.Int pad;
                        Py.Int (256 - pad); Py.Int (256 - pad)]
                       None (Some RINGC) width))
                 sh (0, 0))
    /\ 2 <= width /\ 0 <= radius
    /\ (256 < 250 -> radius = 0)
    /\ (256 <= 1024 ->
        pad = 9 * 256 / 100 /\ width = Z.max 2 (8 * 256 / 100)
        /\ radius = 256 / 250 /\ (250 <= 256 -> 0 < radius)).
Proof. apply (C5_ring_step 256 empty_world). lia. Defined.

(** C6.  The shadow is specified to lie under the main glyph in the returned
    image.  With [ring=True] the returned image is the shadow composited
    over the blurred ring canvas and nothing is drawn above the shadow: the
    glyph goes to the canvas the handle was created on, which is another
    object (the same defect as in C1).  The shadow itself is built as
    specified: the silhouette without eyes on a fresh transparent layer,
    blurred, then scaled by 0.22. *)
Theorem C6_no_glyph_over_shadow_with_ring (size : Z) (w : world) :
  0 <= size <= 536870910 ->
  exists w',
    render_icon size true w = Ok (length (heap w) + 1)%nat w'
    /\ heap w' !! (length (heap w) + 1)%nat
       = Some (AlphaComposite
                 (GaussianBlur (ring_blur size) (ring_canvas size))
                 (shadow size) (0, 0))
    /\ heap w' !! length (heap w) = Some (glyph_canvas detail size true)
    /\ shadow size
       = Point (fade_table ++ fade_table ++ fade_table ++ fade_table)
           (GaussianBlur (shadow_blur size)
              (drawn (blank size) (center size) (center size) (scale size)
                 false 0)).
Proof.
  intros Hs. eexists. split; [apply render_icon_run; exact Hs |].
  cbn [heap]. split; [rewrite lookup_heap_at; reflexivity |].
  split; [apply lookup_heap_first | reflexivity].
Qed.

Lemma C6_witness :
  exists w',
    render_icon 64 true empty_world = Ok 1%nat w'
    /\ heap w' !! 1%nat
       = Some (AlphaComposite
                 (GaussianBlur (ring_blur 64) (ring_canvas 64))
                 (shadow 64) (0, 0))
    /\ heap w' !! 0%nat = Some (glyph_canvas detail 64 true)
    /\ shadow 64
       = Point (fade_table ++ fade_table ++ fade_table ++ fade_table)
           (GaussianBlur (shadow_blur 64)
              (drawn (blank 64) (center 64) (center 64) (scale 64) false 0)).
Proof. apply (C6_no_glyph_over_shadow_with_ring 64 empty_world). lia. Defined.

(** C7.  Run with an empty output directory, the generator finishes and the
    directory then holds exactly the eighteen files of the fixed set. *)
Theorem C7_exact_file_set :
  generate empty_world = Ok tt generated
  /\ dom (disk generated)
     = list_to_set
         (map in_out
            ["icon-16.png"; "icon-24.png"; "icon-32.png"; "icon-48.png";
             "icon-64.png"; "icon-128.png"; "icon-192.png"; "icon-256.png";
             "icon-512.png"; "favicon-16x16.png"; "favicon-32x32.png";
             "android-chrome-192x192.png"; "android-chrome-512x512.png";
             "favicon.ico"; "apple-touch-icon.png"; "favicon.svg";
             "safari-pinned-tab.svg"; "site.webmanifest"]).
Proof.
  split; [exact generate_run |].
  rewrite <- (list_to_set_elements_L (dom (disk generated))).
  apply list_to_set_perm_L.
  apply (bool_decide_eq_true_1 _). vm_compute. reflexivity.
Qed.

(** C8.  The image [render_icon] returns depends on its arguments only: in
    any world it is the image returned in the empty world, the objects and
    the files that existed before the call are left as they were, and a call
    that raises does so in every world. *)
Theorem C8_render_icon_depends_on_arguments_only
    (size : Z) (ring : bool) (w : world) :
  match render_icon size ring w with
  | Ok r w' =>
      heap w' !! r = rendered size ring
      /\ is_Some (rendered size ring)
      /\ (forall i im, heap w !! i = Some im -> heap w' !! i = Some im)
      /\ disk w' = disk w
  | Raise e => render_icon size ring empty_world = Raise e
  end.
Proof.
  destruct (Z.lt_ge_cases size 0) as [Hn | Hn].
  { destruct (render_icon_rejects size ring (or_introl Hn)) as [e He].
    rewrite !He. reflexivity. }
  destruct (Z.lt_ge_cases 536870910 size) as [Hl | Hl].
  { destruct (render_icon_rejects size ring (or_intror Hl)) as [e He].
    rewrite !He. reflexivity. }
  rewrite render_icon_run by lia. cbn [heap disk].
  rewrite rendered_eq by lia. repeat split.
  - rewrite lookup_heap_at. destruct ring; reflexivity.
  - eauto.
  - intros i im Hi. now apply lookup_app_l_Some.
Qed.

(** C9.  After the run, [icon-16.png], [icon-24.png], [icon-32.png] and
    [icon-48.png] hold the image [render_icon] returns without a ring, and
    [icon-64.png] to [icon-512.png] the image it returns with one; the two
    images differ at every size, so each file tells which call made it. *)
Theorem C9_ring_from_64 :
  generate empty_world = Ok tt generated
  /\ Forall (fun n =>
       disk generated !! in_out ("icon-" +:+ Py.str n +:+ ".png")
       = Some (ImageFile PNG (returned_canvas n false) None)
       /\ rendered n false = Some (returned_canvas n false)
       /\ (64 <=? n) = false)
       [16; 24; 32; 48]
  /\ Forall (fun n =>
       disk generated !! in_out ("icon-" +:+ Py.str n +:+ ".png")
       = Some (ImageFile PNG (returned_canvas n true) None)
       /\ rendered n true = Some (returned_canvas n true)
       /\ (64 <=? n) = true)
       [64; 128; 192; 256; 512]
  /\ forall n, returned_canvas n true <> returned_canvas n false.
Proof.
  split; [exact generate_run |].
  split; [| split].
  - repeat constructor; try (apply rendered_eq; lia); vm_compute; reflexivity.
  - repeat constructor; try (apply rendered_eq; lia); vm_compute; reflexivity.
  - intros n. unfold returned_canvas, glyph_canvas, drawn, draw_mushroom,
      ellipse, rounded_rectangle.
    destruct (Py.truthy (fst (detail n))), (snd (detail n)); discriminate.
Qed.

(** C10.  In a run of [render_icon] the object [Image.eval] returns (the
    fourth one allocated) is the table applied to the blurred silhouette
    (the third), and the table acts on every band, colour as well as alpha:
    a blurred pixel (r, g, b, a) becomes (22r/100, 22g/100, 22b/100,
    22a/100), rounded down, which is [int(p*0.22)] on bytes.  Where the
    blurred silhouette has the fill colour (233, 238, 242, 255), the shadow
    layer holds (51, 52, 53, 56), and inside the canvas the image returned
    for [ring=False] shows that colour wherever the glyph drawn afterwards
    does not cover it: the fill colour scaled by 0.22, never the fill colour
    at alpha 56. *)
Theorem C10_shadow_scales_every_band (B : backend) (size : Z) (w : world) :
  0 <= size <= 536870910 ->
  exists ref w' im sil soft sh lut,
    render_icon size false w = Ok ref w'
    /\ heap w' !! ref = Some im
    /\ heap w' !! (length (heap w) + 1)%nat = Some sil
    /\ heap w' !! (length (heap w) + 2)%nat = Some soft
    /\ heap w' !! (length (heap w) + 3)%nat = Some sh
    /\ soft = GaussianBlur (Z.max 1 (Py.int (#size * Py.lit 3 100)%py)) sil
    /\ sh = Point lut soft
    /\ forall x y r g b a,
         denote B soft x y = [r; g; b; a] ->
         denote B sh x y
         = [22 * r / 100; 22 * g / 100; 22 * b / 100; 22 * a / 100]
         /\ ([r; g; b; a] = FG ->
             denote B sh x y = [51; 52; 53; 56]
             /\ (0 <= x < size -> 0 <= y < size ->
                 (denote B im x y = [51; 52; 53; 56]
                  \/ denote B im x y = FG
                  \/ denote B im x y = OUTL
                  \/ denote B im x y = EYES)
                 /\ denote B im x y <> [233; 238; 242; 56])).
Proof.
  intros Hs.
  eexists _, _, (returned_canvas size false), (silhouette size),
    (soft_silhouette size), (shadow size), _.
  split; [apply render_icon_run; exact Hs |]. cbn [heap].
  rewrite !lookup_heap_at.
  split; [reflexivity |]. split; [reflexivity |]. split; [reflexivity |].
  split; [reflexivity |]. split; [reflexivity |]. split; [reflexivity |].
  intros x y r g b a Hp.
  assert (Hbytes : 0 <= r <= 255 /\ 0 <= g <= 255 /\ 0 <= b <= 255
                   /\ 0 <= a <= 255).
  { unfold soft_silhouette in Hp. cbn [denote] in Hp.
    destruct (Z.eqb_spec (shadow_blur size) 0) as [E | _];
      [unfold shadow_blur in E; lia |].
    destruct (blur B (shadow_blur size) (size_of (silhouette size))
                (denote B (silhouette size)) x y)
      as [|r0 [|g0 [|b0 [|a0 [|? ?]]]]]; try discriminate Hp.
    injection Hp as <- <- <- <-. auto using clip8_range. }
  destruct Hbytes as (Hr & Hg & Hb & Ha).
  assert (E : denote B (shadow size) x y
              = [22 * r / 100; 22 * g / 100; 22 * b / 100; 22 * a / 100]).
  { unfold shadow. cbn [denote]. rewrite Hp. cbn [imap compose].
    rewrite !nth_fade_band by lia. now rewrite !fade_exact by lia. }
  split; [exact E |].
  intros HFG. injection HFG as -> -> -> ->.
  assert (E' : denote B (shadow size) x y = [51; 52; 53; 56])
    by (rewrite E; reflexivity).
  split; [exact E' |].
  intros Hx Hy.
  assert (U : denote B (under_glyph size false) x y = [51; 52; 53; 56]).
  { unfold under_glyph. cbn [denote blank]. rewrite size_of_shadow.
    destruct (Z.leb_spec 0 x); [|lia].
    destruct (Z.ltb_spec x (0 + size)); [|lia].
    destruct (Z.leb_spec 0 y); [|lia].
    destruct (Z.ltb_spec y (0 + size)); [|lia].
    cbn [andb]. rewrite !Z.sub_0_r, E'. vm_compute. reflexivity. }
  unfold returned_canvas, glyph_canvas.
  destruct (drawn_pixel_cases B (under_glyph size false) (center size)
              (center size) (scale size) (snd (detail size))
              (fst (detail size)) x y) as [-> | [-> | [-> | ->]]];
    rewrite ?U; (split; [auto | discriminate]).
Qed.

Lemma C10_witness :
  exists ref w' im soft sh,
    render_icon 16 false empty_world = Ok ref w'
    /\ heap w' !! ref = Some im
    /\ heap w' !! 2%nat = Some soft
    /\ heap w' !! 3%nat = Some sh
    /\ denote box_backend soft 8 8 = FG
    /\ denote box_backend sh 8 8 = [51; 52; 53; 56]
    /\ denote box_backend im 8 8 <> [233; 238; 242; 56].
Proof.
  destruct (C10_shadow_scales_every_band box_backend 16 empty_world
              ltac:(lia))
    as (ref & w' & im & sil & soft & sh & lut
        & Hrun & Him & Hsil & Hsoft & Hsh & Esoft & Esh & Hpix).
  assert (Hp : denote box_backend soft 8 8 = FG).
  { rewrite render_icon_run in Hrun by lia. injection Hrun as _ <-.
    vm_compute in Hsoft. injection Hsoft as <-. vm_compute. reflexivity. }
  destruct (Hpix 8 8 _ _ _ _ Hp) as [_ H2].
  destruct (H2 eq_refl) as [H3 H4].
  destruct (H4 ltac:(lia) ltac:(lia)) as [_ H5].
  exists ref, w', im, soft, sh. repeat split; assumption.
Defined.

(** * Further properties of the script *)

Section Apple.

Lemma apple_fits_upto : forallb apple_fits (map Z.of_nat (seq 0 1025)) = true.
Proof. vm_compute. reflexivity. Qed.

Lemma apple_fits_1024 size :
  0 <= size <= 1024 ->
  0 <= apple_glyph_size size /\ 0 <= apple_offset size
  /\ apple_offset size + apple_glyph_size size <= size.
Proof.
  intros H.
  pose proof (forall_upto _ _ apple_fits_upto size ltac:(lia)) as E.
  unfold apple_fits in E.
  repeat (apply andb_true_iff in E as [E ?]).
  repeat match goal with H : (_ <=? _) = true |- _ => apply Z.leb_le in H end.
  auto.
Qed.

Lemma Image_composite_run a b m w ca cb cm :
  heap w !! a = Some ca -> heap w !! b = Some cb -> heap w !! m = Some cm ->
  Image_composite a b m w
  = Ok (length (heap w)) (World (heap w ++ [Composite ca cb cm]) (disk w)).
Proof.
  intros Ha Hb Hm. unfold Image_composite.
  erewrite bind_run by (apply content_run; exact Ha).
  erewrite bind_run by (apply content_run; exact Hb).
  erewrite bind_run by (apply content_run; exact Hm).
  reflexivity.
Qed.

Lemma putalpha_run im alpha w c a :
  heap w !! im = Some c -> heap w !! alpha = Some a ->
  putalpha im alpha w
  = Ok tt (World (<[im := PutAlpha c a]> (heap w)) (disk w)).
Proof.
  intros Hc Ha. unfold putalpha.
  erewrite bind_run by (apply content_run; exact Ha).
  now rewrite (update_run _ _ _ _ Hc).
Qed.

Lemma apple_icon_run size w :
  0 <= size <= 1024 ->
  apple_icon size w
  = Ok (length (heap w) + 10)%nat
      (World (heap w ++ apple_objects size) (disk w)).
Proof.
  intros Hs. destruct (apple_fits_1024 size Hs) as (Hg & Ho & Hfit).
  destruct w as [h dk]. unfold apple_icon.
  erewrite bind_run by (apply Image_new_run; lia). heap_norm.
  erewrite bind_run by (apply Image_new_run; lia). heap_norm.
  erewrite bind_run by (eapply ImageDraw_Draw_run; cbn [heap]; heap_lookup).
  unfold ellipse at 1.
  erewrite bind_run by (eapply update_run; cbn [heap]; heap_lookup).
  heap_norm.
  erewrite bind_run by (eapply filter_GaussianBlur_run; cbn [heap]; heap_lookup).
  heap_norm.
  erewrite bind_run by (apply Image_new_run; lia). heap_norm.
  erewrite bind_run by (eapply Image_composite_run; cbn [heap]; heap_lookup).
  heap_norm.
  erewrite bind_run by (apply render_icon_run; unfold apple_glyph_size in *; lia).
  unfold objects. heap_norm.
  erewrite bind_run by (apply Image_new_run; lia). heap_norm.
  erewrite bind_run by (eapply alpha_composite_run; cbn [heap]; heap_lookup).
  heap_norm.
  erewrite bind_run by (eapply alpha_composite_run; cbn [heap]; heap_lookup).
  heap_norm.
  erewrite bind_run by (apply Image_new_run; lia). heap_norm.
  erewrite bind_run by (eapply ImageDraw_Draw_run; cbn [heap]; heap_lookup).
  unfold rounded_rectangle.
  erewrite bind_run by (eapply update_run; cbn [heap]; heap_lookup).
  heap_norm.
  erewrite bind_run by (eapply putalpha_run; cbn [heap]; heap_lookup).
  heap_norm.
  reflexivity.
Qed.
End Apple.

Section GenerateAnywhere.
#[local] Opaque generated.


Lemma save_run im path fmt sizes w c :
  heap w !! im = Some c ->
  save im path fmt sizes w
  = Ok tt (World (heap w) (<[path := ImageFile fmt c sizes]> (disk w))).
Proof.
  intros H. unfold save.
  erewrite bind_run by (apply content_run; exact H). reflexivity.
Qed.

Lemma Image_open_run path w c sizes :
  disk w !! path = Some (ImageFile PNG c sizes) ->
  Image_open path w = Ok (length (heap w)) (World (heap w ++ [c]) (disk w)).
Proof. intros H. unfold Image_open. now rewrite H. Qed.

Lemma icon_step n w :
  0 <= n <= 536870910 ->
  (img ← render_icon n (64 <=? n);
   save img (in_out ("icon-" +:+ Py.str n +:+ ".png")) PNG None) w
  = Ok tt (World (heap w ++ objects n (64 <=? n))
             (<[(icon_file n).1 := (icon_file n).2]> (disk w))).
Proof.
  intros H. erewrite bind_run by (apply render_icon_run; exact H).
  erewrite save_run; [reflexivity |].
  cbn [heap]. rewrite lookup_heap_at. destruct (64 <=? n); reflexivity.
Qed.

Lemma icon_loop_run (l : list Z) w :
  Forall (fun n => 0 <= n <= 536870910) l ->
  for_each l (fun n =>
    img ← render_icon n (64 <=? n);
    save img (in_out ("icon-" +:+ Py.str n +:+ ".png")) PNG None) w
  = Ok tt (World (heap w ++ mjoin (map (fun n => objects n (64 <=? n)) l))
             (write_all (map icon_file l) (disk w))).
Proof.
  intros Hl. revert w. induction Hl as [|n l Hn Hl IH]; intros w.
  - cbn. rewrite app_nil_r. now destruct w.
  - cbn [for_each]. erewrite bind_run by (apply icon_step; exact Hn).
    rewrite IH. cbn [heap disk map mjoin list_join]. now rewrite app_assoc.
Qed.

Lemma copy_png_run src dst w c sizes :
  disk w !! in_out src = Some (ImageFile PNG c sizes) ->
  copy_png src dst w
  = Ok tt (World (heap w ++ [c]) (<[in_out dst := ImageFile PNG c None]> (disk w))).
Proof.
  intros H. unfold copy_png.
  erewrite bind_run by (eapply Image_open_run; exact H).
  erewrite save_run; [reflexivity |]. cbn [heap]. apply lookup_heap_first.
Qed.

Lemma generate_closed w :
  generate w
  = Ok tt (World (heap w ++ generate_objects)
             (write_all output_files (disk w))).
Proof.
  unfold generate.
  erewrite bind_run
    by (apply icon_loop_run; repeat constructor; vm_compute; congruence).
  unfold write_all at 1. cbn [foldl map icon_sizes].
  erewrite bind_run by (eapply copy_png_run; disk_lookup).
  erewrite bind_run by (eapply copy_png_run; disk_lookup).
  erewrite bind_run by (eapply copy_png_run; disk_lookup).
  erewrite bind_run by (eapply copy_png_run; disk_lookup).
  erewrite bind_run.
  2:{ erewrite bind_run by (eapply Image_open_run; disk_lookup).
      eapply save_run. cbn [heap]. apply lookup_heap_first. }
  erewrite bind_run.
  2:{ erewrite bind_run by (apply apple_icon_run; lia).
      eapply save_run. cbn [heap]. rewrite lookup_heap_at. reflexivity. }
  unfold write_text, store_file.
  erewrite bind_run by reflexivity.
  erewrite bind_run by reflexivity.
  cbn [heap disk]. unfold generate_objects.
  rewrite <- !app_assoc. reflexivity.
Qed.

Lemma disk_generated : disk generated = write_all output_files ∅.
Proof.
  pose proof generate_run as H. rewrite generate_closed in H.
  exact (f_equal (fun o => match o with
                           | Ok _ w => disk w
                           | Raise _ => ∅
                           end) (eq_sym H)).
Qed.

Lemma write_all_union (d : gmap string file) :
  write_all output_files d = write_all output_files ∅ ∪ d.
Proof.
  unfold write_all, output_files. cbn [map icon_sizes app foldl].
  rewrite <- !insert_union_l. now rewrite (left_id_L ∅ (∪)).
Qed.

End GenerateAnywhere.


Section Further.

Lemma paints_drawn c base cx cy s e o :
  paints c (drawn base cx cy s e o)
  = bool_decide (c = FG)
    || (Py.truthy o && bool_decide (c = OUTL))
    || (e && bool_decide (c = EYES))
    || paints c base.
Proof.
  unfold drawn, draw_mushroom, ellipse, rounded_rectangle.
  destruct (Py.truthy o), e;
    match goal with
    | |- paints c ?t = _ =>
        let t' := eval cbv [mbind M_bind update mret M_ret heap disk lookup
                            list_lookup insert list_insert default
                            from_option id] in t in
        change t with t'
    end; cbn [paints]; unfold FG, OUTL, EYES;
    repeat case_bool_decide; try congruence;
    destruct (paints c base); reflexivity.
Qed.

Lemma rendered_valid size ring im :
  rendered size ring = Some im ->
  0 <= size <= 536870910 /\ im = returned_canvas size ring.
Proof.
  intros H.
  destruct (Z.lt_ge_cases size 0) as [Hn | Hn].
  { destruct (render_icon_rejects size ring (or_introl Hn)) as [e He].
    unfold rendered in H. now rewrite He in H. }
  destruct (Z.lt_ge_cases 536870910 size) as [Hl | Hl].
  { destruct (render_icon_rejects size ring (or_intror Hl)) as [e He].
    unfold rendered in H. now rewrite He in H. }
  rewrite rendered_eq in H by lia. split; [lia | congruence].
Qed.

(** X2.  Whenever [render_icon] returns, for any size and either value of
    [ring], the image it returns is RGBA and exactly size x size pixels; and
    it does return for every size from 0 to 1024. *)
Theorem X2_render_icon_dimensions size ring w :
  (forall r w',
     render_icon size ring w = Ok r w' ->
     exists im,
       heap w' !! r = Some im
       /\ size_of im = (size, size) /\ mode_of im = RGBA)
  /\ (0 <= size <= 1024 -> exists r w', render_icon size ring w = Ok r w').
Proof.
  split.
  - intros r w' H.
    assert (Hs : 0 <= size <= 536870910).
    { destruct (Z.lt_ge_cases size 0) as [Hn | Hn].
      { destruct (render_icon_rejects size ring (or_introl Hn)) as [e He].
        rewrite He in H. discriminate H. }
      destruct (Z.lt_ge_cases 536870910 size) as [Hl | Hl]; [| lia].
      destruct (render_icon_rejects size ring (or_intror Hl)) as [e He].
      rewrite He in H. discriminate H. }
    rewrite render_icon_run in H by exact Hs. injection H as <- <-.
    exists (returned_canvas size ring). cbn [heap].
    split; [rewrite lookup_heap_at; destruct ring; reflexivity |].
    destruct ring; unfold returned_canvas, glyph_canvas;
      cbn [size_of mode_of]; rewrite ?size_of_drawn, ?mode_of_drawn;
      split; reflexivity.
  - intros Hs. eexists _, _. apply render_icon_run. lia.
Qed.

Lemma X2_witness :
  exists r w' im,
    render_icon 32 false empty_world = Ok r w'
    /\ heap w' !! r = Some im
    /\ size_of im = (32, 32) /\ mode_of im = RGBA.
Proof.
  destruct (X2_render_icon_dimensions 32 false empty_world) as [Hd Ht].
  destruct (Ht ltac:(lia)) as (r & w' & Hr).
  destruct (Hd r w' Hr) as (im & Him).
  exists r, w', im. split; [exact Hr | exact Him].
Defined.

Lemma paints_shadow c size :
  paints c (shadow size) = bool_decide (c = FG).
Proof.
  unfold shadow, soft_silhouette, silhouette. cbn [paints].
  rewrite paints_drawn. cbn [paints blank Py.truthy Z.eqb negb andb orb].
  now rewrite !orb_false_r.
Qed.

(** X3.  Which colours reach the image [render_icon] returns.  Without a
    ring the eye colour is drawn exactly from size 48 and the outline colour
    exactly below size 48.  With a ring the ring colour is drawn, and neither
    the outline nor the eye colour ever is, at any size. *)
Theorem X3_glyph_colours_by_size_and_ring size ring im :
  rendered size ring = Some im ->
  paints EYES im = negb ring && (48 <=? size)
  /\ paints OUTL im = negb ring && (size <? 48)
  /\ paints RINGC im = ring.
Proof.
  intros H. apply rendered_valid in H as [_ ->].
  destruct ring; unfold returned_canvas, glyph_canvas, under_glyph, ring_canvas;
    cbn [paints]; rewrite ?paints_drawn; cbn [paints blank];
    rewrite ?paints_shadow.
  - repeat split; vm_compute; reflexivity.
  - unfold detail, Py.truthy.
    repeat match goal with
           | |- context [ ?a <=? ?b ] => destruct (Z.leb_spec a b)
           | |- context [ ?a <? ?b ] => destruct (Z.ltb_spec a b)
           end; try lia; repeat split; vm_compute; reflexivity.
Qed.

Lemma X3_witness :
  paints EYES (returned_canvas 48 false) = negb false && (48 <=? 48)
  /\ paints OUTL (returned_canvas 48 false) = negb false && (48 <? 48)
  /\ paints RINGC (returned_canvas 48 false) = false.
Proof.
  apply (X3_glyph_colours_by_size_and_ring 48 false). vm_compute. reflexivity.
Defined.

(** X4.  Every pixel of the image [render_icon] returns without a ring has
    the fill, the outline or the eye colour, or is a shadow pixel none of
    whose bands exceeds 56 (22% of 255), for any rasteriser and blur. *)
Theorem X4_pixels_without_ring B size im x y :
  rendered size false = Some im ->
  denote B im x y = FG \/ denote B im x y = OUTL \/ denote B im x y = EYES
  \/ Forall (fun v => 0 <= v <= 56) (denote B im x y).
Proof.
  intros H. apply rendered_valid in H as [_ ->].
  unfold returned_canvas, glyph_canvas.
  destruct (drawn_pixel_cases B (under_glyph size false) (center size)
              (center size) (scale size) (snd (detail size))
              (fst (detail size)) x y) as [-> | [-> | [-> | ->]]]; auto.
  right; right; right. unfold under_glyph. cbn [denote blank].
  destruct (size_of (shadow size)) as [sw sh].
  case_match; [| repeat constructor; lia].
  apply over_transparent_faint, shadow_range.
Qed.

Lemma X4_witness :
  denote box_backend (returned_canvas 16 false) 0 0 = FG
  \/ denote box_backend (returned_canvas 16 false) 0 0 = OUTL
  \/ denote box_backend (returned_canvas 16 false) 0 0 = EYES
  \/ Forall (fun v => 0 <= v <= 56)
       (denote box_backend (returned_canvas 16 false) 0 0).
Proof.
  apply (X4_pixels_without_ring box_backend 16 (returned_canvas 16 false) 0 0).
  vm_compute. reflexivity.
Defined.

(** X5.  On every band value 0..255 the shadow's [int(p*0.22)] is exactly
    22p/100 rounded down: binary64 rounding never moves it, and the shadow
    never brightens a band. *)
Theorem X5_fade_is_22_percent_rounded_down p :
  0 <= p <= 255 ->
  fade p = 22 * p / 100
  /\ nth (Z.to_nat p) fade_table 0 = 22 * p / 100
  /\ 0 <= fade p <= p.
Proof.
  intros H.
  pose proof (forall_upto _ _ fade_exact_upto p ltac:(lia)) as E.
  apply Z.eqb_eq in E. split; [exact E |]. split.
  - rewrite nth_fade_table by lia. rewrite Z2Nat.id by lia. exact E.
  - rewrite E. Z.div_mod_to_equations. lia.
Qed.

Lemma X5_witness :
  fade 255 = 22 * 255 / 100
  /\ nth (Z.to_nat 255) fade_table 0 = 22 * 255 / 100
  /\ 0 <= fade 255 <= 255.
Proof. apply (X5_fade_is_22_percent_rounded_down 255). lia. Defined.

(** X6.  For sizes 0..1024 the shadow layer, the last object a call of
    [render_icon] allocates, is blurred with radius max(1, 3*size/100)
    rounded down, before the 0.22 table is applied. *)
Theorem X6_shadow_blur_radius size ring w :
  0 <= size <= 1024 ->
  exists r w',
    render_icon size ring w = Ok r w'
    /\ last (heap w')
       = Some (Point (fade_table ++ fade_table ++ fade_table ++ fade_table)
                 (GaussianBlur (Z.max 1 (3 * size / 100)) (silhouette size)))
    /\ 1 <= Z.max 1 (3 * size / 100) <= Z.max 1 (size / 33).
Proof.
  intros Hs. destruct (percent_exact_1024 size Hs) as (_ & _ & _ & Hb).
  eexists _, _. split; [apply render_icon_run; lia |]. cbn [heap]. split.
  - unfold objects. destruct ring; rewrite last_app; cbn [last];
      unfold shadow, soft_silhouette; now rewrite Hb.
  - Z.div_mod_to_equations. lia.
Qed.

Lemma X6_witness :
  exists r w',
    render_icon 512 true empty_world = Ok r w'
    /\ last (heap w')
       = Some (Point (fade_table ++ fade_table ++ fade_table ++ fade_table)
                 (GaussianBlur (Z.max 1 (3 * 512 / 100)) (silhouette 512)))
    /\ 1 <= Z.max 1 (3 * 512 / 100) <= Z.max 1 (512 / 33).
Proof. apply (X6_shadow_blur_radius 512 true empty_world). lia. Defined.

(** X7.  For sizes 0..1024 [apple_icon] returns an RGBA image of
    size x size pixels, built as [apple_canvas] says; it only adds objects
    and touches no file; the glyph it composites is the image
    [render_icon(int(size*0.70), ring=True)] returns, and it lies inside the
    card. *)
Theorem X7_apple_icon_result size w :
  0 <= size <= 1024 ->
  exists r w' h',
    apple_icon size w = Ok r w'
    /\ heap w' = heap w ++ h' /\ disk w' = disk w
    /\ heap w' !! r = Some (apple_canvas size)
    /\ size_of (apple_canvas size) = (size, size)
    /\ mode_of (apple_canvas size) = RGBA
    /\ rendered (apple_glyph_size size) true
       = Some (returned_canvas (apple_glyph_size size) true)
    /\ 0 <= apple_offset size
    /\ apple_offset size + apple_glyph_size size <= size.
Proof.
  intros Hs. destruct (apple_fits_1024 size Hs) as (Hg & Ho & Hfit).
  eexists _, _, (apple_objects size).
  split; [apply apple_icon_run; exact Hs |]. cbn [heap disk].
  repeat split; try reflexivity; try assumption.
  - rewrite lookup_heap_at. reflexivity.
  - apply rendered_eq. lia.
Qed.

Lemma X7_witness :
  exists r w' h',
    apple_icon 180 empty_world = Ok r w'
    /\ heap w' = heap empty_world ++ h' /\ disk w' = disk empty_world
    /\ heap w' !! r = Some (apple_canvas 180)
    /\ size_of (apple_canvas 180) = (180, 180)
    /\ mode_of (apple_canvas 180) = RGBA
    /\ rendered (apple_glyph_size 180) true
       = Some (returned_canvas (apple_glyph_size 180) true)
    /\ 0 <= apple_offset 180
    /\ apple_offset 180 + apple_glyph_size 180 <= 180.
Proof. apply (X7_apple_icon_result 180 empty_world). lia. Defined.

Lemma apple_sizes_upto :
  forallb (fun z =>
      (7 * z / 10 - 1 <=? apple_glyph_size z)
      && (apple_glyph_size z <=? 7 * z / 10)
      && ((apple_glyph_size z =? 7 * z / 10) || (z mod 10 =? 0))
      && (apple_offset z =? 15 * z / 100))
    (map Z.of_nat (seq 0 1025)) = true.
Proof. vm_compute. reflexivity. Qed.

(** X8.  For sizes 0..1024 the touch icon's glyph size [int(size*0.70)] is
    70% of size rounded down or one less, the latter only at multiples of
    10; at 180, the size the script uses, it is 125 and not 126.  The offset
    [int(size*0.15)] is exactly 15% rounded down. *)
Theorem X8_apple_glyph_size size :
  0 <= size <= 1024 ->
  7 * size / 10 - 1 <= apple_glyph_size size <= 7 * size / 10
  /\ (size mod 10 <> 0 -> apple_glyph_size size = 7 * size / 10)
  /\ apple_offset size = 15 * size / 100
  /\ apple_glyph_size 180 = 125.
Proof.
  intros H.
  pose proof (forall_upto _ _ apple_sizes_upto size ltac:(lia)) as E.
  cbv beta in E.
  apply andb_true_iff in E as [E Ho]. apply andb_true_iff in E as [E Hm].
  apply andb_true_iff in E as [Hl Hu].
  apply Z.leb_le in Hl, Hu. apply Z.eqb_eq in Ho.
  split; [split; assumption |]. split; [| split; [assumption |]].
  - intros Hne. apply orb_true_iff in Hm as [Hm | Hm].
    + now apply Z.eqb_eq in Hm.
    + apply Z.eqb_eq in Hm. contradiction.
  - vm_compute. reflexivity.
Qed.

Lemma X8_witness :
  7 * 180 / 10 - 1 <= apple_glyph_size 180 <= 7 * 180 / 10
  /\ (180 mod 10 <> 0 -> apple_glyph_size 180 = 7 * 180 / 10)
  /\ apple_offset 180 = 15 * 180 / 100
  /\ apple_glyph_size 180 = 125.
Proof. apply (X8_apple_glyph_size 180). lia. Defined.

(** X9.  After a run from any world the four files with standard names hold
    what their source icons hold, and [favicon.ico] holds the 64 px icon
    with the five requested sizes, each of which fits in 64 x 64. *)
Theorem X9_derived_files_copy_their_sources (w : world) :
  exists w',
    generate w = Ok tt w'
    /\ disk w' !! in_out "favicon-16x16.png" = disk w' !! in_out "icon-16.png"
    /\ disk w' !! in_out "favicon-32x32.png" = disk w' !! in_out "icon-32.png"
    /\ disk w' !! in_out "android-chrome-192x192.png"
       = disk w' !! in_out "icon-192.png"
    /\ disk w' !! in_out "android-chrome-512x512.png"
       = disk w' !! in_out "icon-512.png"
    /\ exists im sizes,
         disk w' !! in_out "icon-64.png" = Some (ImageFile PNG im None)
         /\ disk w' !! in_out "favicon.ico" = Some (ImageFile ICO im (Some sizes))
         /\ size_of im = (64, 64)
         /\ sizes = [(16, 16); (24, 24); (32, 32); (48, 48); (64, 64)]
         /\ Forall (fun s => 0 < s.1 <= 64 /\ 0 < s.2 <= 64) sizes.
Proof.
  eexists. split; [apply generate_closed |].
  unfold write_all, output_files. cbn [map icon_sizes app foldl fst snd].
  split; [transitivity (Some (ImageFile PNG (returned_canvas 16 false) None));
          [| symmetry]; disk_lookup |].
  split; [transitivity (Some (ImageFile PNG (returned_canvas 32 false) None));
          [| symmetry]; disk_lookup |].
  split; [transitivity (Some (ImageFile PNG (returned_canvas 192 true) None));
          [| symmetry]; disk_lookup |].
  split; [transitivity (Some (ImageFile PNG (returned_canvas 512 true) None));
          [| symmetry]; disk_lookup |].
  eexists _, _. split; [disk_lookup |]. split; [disk_lookup |].
  split; [| split; [reflexivity | repeat constructor; cbn; lia]].
  unfold returned_canvas. cbn [Z.leb Z.compare Pos.compare Pos.compare_cont size_of].
  apply size_of_shadow.
Qed.

(** X10.  After a run from any world the manifest is on disk, it lists two
    icons, and each entry's [src] is "/" followed by the path of a PNG the
    run has written, whose dimensions are the ones in [sizes]. *)
Theorem X10_manifest_icons_are_written (w : world) :
  exists w',
    generate w = Ok tt w'
    /\ disk w' !! in_out "site.webmanifest"
       = Some (TextFile (JsonDumps manifest 2))
    /\ length (icons_of manifest) = 2%nat
    /\ Forall (fun e =>
         exists path im n,
           text_of (member "src" e) = "/" +:+ path
           /\ disk w' !! path = Some (ImageFile PNG im None)
           /\ size_of im = (n, n)
           /\ text_of (member "sizes" e) = Py.str n +:+ "x" +:+ Py.str n
           /\ text_of (member "type" e) = "image/png")
       (icons_of manifest).
Proof.
  eexists. split; [apply generate_closed |].
  unfold write_all, output_files. cbn [map icon_sizes app foldl fst snd].
  split; [disk_lookup |]. split; [reflexivity |].
  repeat constructor.
  - exists (in_out "android-chrome-192x192.png"), (returned_canvas 192 true), 192.
    split; [reflexivity |]. split; [disk_lookup |].
    split; [| split; reflexivity].
    unfold returned_canvas. cbn [size_of]. apply size_of_shadow.
  - exists (in_out "android-chrome-512x512.png"), (returned_canvas 512 true), 512.
    split; [reflexivity |]. split; [disk_lookup |].
    split; [| split; reflexivity].
    unfold returned_canvas. cbn [size_of]. apply size_of_shadow.
Qed.

(** X11.  Whatever image objects and files exist when the script starts, it
    finishes without raising; it writes its eighteen files with the contents
    of a clean run, leaves every other file as it was and keeps every
    earlier image object. *)
Theorem X11_generate_overwrites_only_its_files (w : world) :
  exists h',
    generate w = Ok tt (World (heap w ++ h') (disk generated ∪ disk w)).
Proof.
  exists generate_objects. rewrite generate_closed. do 2 f_equal.
  rewrite disk_generated. apply write_all_union.
Qed.

(** X12.  Running the script a second time on what the first run left
    changes no file. *)
Theorem X12_generate_twice_is_generate_once (w : world) :
  exists w1 w2,
    generate w = Ok tt w1 /\ generate w1 = Ok tt w2 /\ disk w2 = disk w1.
Proof.
  eexists _, _. split; [apply generate_closed |].
  split; [apply generate_closed |]. cbn [disk].
  rewrite (write_all_union (write_all output_files (disk w))).
  rewrite (write_all_union (disk w)).
  rewrite (assoc_L (∪)). now rewrite (idemp_L (∪)).
Qed.

End Further.
